(** * ThinkStats: conditional PMFs ([conditional.py]) and bar plots ([myplot.py])

    A shallow embedding of the two Python modules and the properties of
    their specification.

    - Python objects live in an explicit store; a variable holds a
      reference.  Methods that mutate [self] update the store in place, so
      aliasing is visible.
    - Python exceptions are a second outcome of every computation; the
      store at the moment of the raise is kept.
    - Probability masses are exact rationals ([Qc]): the arithmetic of the
      code is modelled in the field of rationals, rounding of binary
      floating point is not modelled.  Values of a distribution are
      integers (weeks). *)

From Stdlib Require Import ZArith QArith Qcanon Field.
From stdpp Require Import base option list strings gmap fin_maps numbers.

Local Open Scope Z_scope.
Local Open Scope Qc_scope.

(** ** Python runtime: values, exceptions, computations *)

Module Py.

(** The exceptions the two modules can meet.  [EmptyDistributionError] is
    the name the spec's error taxonomy gives to the error of normalising a
    distribution of total mass zero; the spec counts it in the
    division-by-zero class. *)
Inductive exn : Type :=
  | EmptyDistributionError
  | ZeroDivisionError
  | ValueError
  | IndexError
  | TypeError
  | ReferenceError
  | NameError (name : string).

Definition is_division_by_zero_class (e : exn) : bool :=
  match e with
  | EmptyDistributionError | ZeroDivisionError => true
  | _ => false
  end.

(** The Python values that are returned or stored in option dictionaries. *)
Inductive value : Type :=
  | None_
  | Num (q : Qc)
  | Str (s : string).

(** A computation over a state [S]: it returns a result or raises, and in
    both cases leaves a state behind. *)
Inductive outcome (S A : Type) : Type :=
  | Ret (a : A) (s : S)
  | Raise (e : exn) (s : S).
Arguments Ret {S A} a s.
Arguments Raise {S A} e s.

Definition M (S A : Type) : Type := S → outcome S A.

Definition ret {S A} (a : A) : M S A := λ s, Ret a s.
Definition raise {S A} (e : exn) : M S A := λ s, Raise e s.
Definition bind {S A B} (m : M S A) (k : A → M S B) : M S B :=
  λ s, match m s with
       | Ret a s' => k a s'
       | Raise e s' => Raise e s'
       end.
#[global] Instance M_ret {S} : MRet (M S) := λ A, ret.
#[global] Instance M_bind {S} : MBind (M S) := λ A B k m, bind m k.

(** [for x in xs: body(x)] *)
Fixpoint for_each {S A} (xs : list A) (body : A → M S unit) : M S unit :=
  match xs with
  | [] => ret tt
  | x :: xs' => body x ;; for_each xs' body
  end.

(** [[f(x) for x in xs]] *)
Fixpoint comprehension {S A B} (xs : list A) (f : A → M S B) : M S (list B) :=
  match xs with
  | [] => ret []
  | x :: xs' => y ← f x; ys ← comprehension xs' f; ret (y :: ys)
  end.

(** The builtin [sum]: a left fold from 0. *)
Definition sum (ps : list Qc) : Qc := foldl Qcplus 0 ps.

(** The builtin [min] on a sequence of numbers; it raises [ValueError] on
    an empty one. *)
Definition min2 (a b : Qc) : Qc := if decide (b < a) then b else a.
Definition min {S} (ps : list Qc) : M S Qc :=
  match ps with
  | [] => raise ValueError
  | p :: ps' => ret (foldl min2 p ps')
  end.

Definition final_state {S A} (o : outcome S A) : S :=
  match o with Ret _ s | Raise _ s => s end.

Definition raised {S A} (o : outcome S A) : option exn :=
  match o with Ret _ _ => None | Raise e _ => Some e end.

End Py.

Import Py.

(** ** The Pmf class *)

Module Pmf.

(** Modelled from the spec: the class [Pmf] (Pmf.py is not among the
    sources).  A Distribution is "a mapping from value to non-negative
    mass" and "a display name"; "each Distribution instance owns its own
    mapping". *)
Record obj : Type := Obj { d : gmap Z Qc; name : string }.

(** The store of Pmf objects.  A reference is an index; allocation appends,
    so a reference stays valid and a fresh one is the current length. *)
Abbreviation heap := (list obj).
Abbreviation ref := nat.

Definition deref (self : ref) : M heap obj :=
  λ h, match h !! self with
       | Some o => Ret o h
       | None => Raise ReferenceError h
       end.

Definition alloc (o : obj) : M heap ref :=
  λ h, Ret (length h) (h ++ [o]).

Definition store (self : ref) (o : obj) : M heap unit :=
  λ h, Ret tt (<[self := o]> h).

(** Modelled from the spec: the "total mass" of a distribution, the sum
    of the masses of its mapping. *)
Definition Total (m : gmap Z Qc) : Qc :=
  map_fold (λ _ p acc, p + acc) 0 m.

(** Modelled from the spec: [Pmf.Copy] (Pmf.py is not among the sources).
    "Returns a new Distribution with an identical mapping and the given
    name; no shared mutable state with the original": a new object is
    allocated, holding its own dictionary with the same entries. *)
Definition Copy (self : ref) (name' : string) : M heap ref :=
  o ← deref self;
  alloc {| d := d o; name := name' |}.

(** Modelled from the spec: [Pmf.Remove].  "Deletes the entry for value
    from the mapping if present; no-op if absent." *)
Definition Remove (self : ref) (val : Z) : M heap unit :=
  o ← deref self;
  store self {| d := delete val (d o); name := name o |}.

(** Modelled from the spec: [Pmf.Normalize].  "Rescales every mass by
    1 / total_mass so masses sum to 1.  Fails with a DivisionByZero-class
    error if total mass is 0"; the error is [EmptyDistributionError]. *)
Definition Normalize (self : ref) : M heap unit :=
  o ← deref self;
  let total := Total (d o) in
  if decide (total = 0) then raise EmptyDistributionError
  else
    let factor := 1 / total in
    store self {| d := (λ p, p * factor) <$> d o; name := name o |}.

(** The keys of a dictionary, and the mass it gives to a value. *)
Definition values (m : gmap Z Qc) : list Z := (map_to_list m).*1.
Definition prob (m : gmap Z Qc) (val : Z) : Qc := default 0 (m !! val).

(** Modelled from the spec: [Pmf.Values].  "Produces the set of values
    with nonzero presence in the mapping, order not significant": the keys
    of the dictionary, as a list. *)
Definition Values (self : ref) : M heap (list Z) :=
  o ← deref self;
  ret (values (d o)).

(** Modelled from the spec: [Pmf.Prob].  "Returns the mass associated with
    value, or 0.0 if absent.  Never errors." *)
Definition Prob (self : ref) (val : Z) : M heap Qc :=
  o ← deref self;
  ret (prob (d o) val).

(** The expression of the spec's normalisation property,
    [sum(d.Prob(v) for v in d.Values())]. *)
Definition sum_Prob (self : ref) : M heap Qc :=
  vs ← Values self;
  ps ← comprehension vs (λ v, Prob self v);
  ret (sum ps).

End Pmf.

(** ** conditional.py *)

Module conditional.
Import Pmf.

(** [def ConditionPmf(pmf, filter_func, name='conditional')] *)
Definition ConditionPmf (pmf : ref) (filter_func : Z → bool)
    (name : option string) : M heap ref :=
  let name := default "conditional"%string name in
  cond_pmf ← Copy pmf name;
  all ← Values pmf;
  let vals := List.filter filter_func all in
  for_each vals (λ val, Remove cond_pmf val) ;;
  Normalize cond_pmf ;;
  ret cond_pmf.

(** [def ConditionOnWeeks(pmf, week=39, name='conditional')] *)
Definition ConditionOnWeeks (pmf : ref) (week : option Z)
    (name : option string) : M heap ref :=
  let week := default 39%Z week in
  let name := default "conditional"%string name in
  let filter_func := λ x : Z, (x <? week)%Z in
  cond ← ConditionPmf pmf filter_func (Some name);
  ret cond.

(** The tables handed to [RelativeRisk] carry their distribution in the
    attribute [pmf]. *)
Record table : Type := Table { pmf : ref }.

Section RelativeRisk.
(** [risk.ComputeRelativeRisk]: the module [risk] is not among the
    sources, so the function is a parameter. *)
Variable ComputeRelativeRisk : ref → ref → M heap value.

(** [def RelativeRisk(first, others, week=38)]; the statements after the
    bare [return] are never reached. *)
Definition RelativeRisk (first others : table) (week : option Z)
    : M heap value :=
  let week := default 38%Z week in
  first_cond ← ConditionOnWeeks (pmf first) (Some week) (Some "first babies"%string);
  other_cond ← ConditionOnWeeks (pmf others) (Some week) (Some "others"%string);
  ComputeRelativeRisk first_cond other_cond ;;
  ret None_.
End RelativeRisk.

(** Modelled from the spec: the relative risk of section 4.4 (the module
    [risk] is not among the sources), "the ratio first_cond.Prob(week) /
    other_cond.Prob(week)"; a denominator 0 is a division-by-zero error. *)
Definition relative_risk_ratio (week : Z) (first_cond other_cond : ref)
    : M heap value :=
  p1 ← Prob first_cond week;
  p2 ← Prob other_cond week;
  if decide (p2 = 0) then raise ZeroDivisionError else ret (Num (p1 / p2)).

(** What the spec calls conditioning: the dictionary restricted to the
    values that [keep] accepts, every mass divided by the mass that is
    left. *)
Definition restrict (keep : Z → bool) (m : gmap Z Qc) : gmap Z Qc :=
  filter (λ kv, keep kv.1 = true) m.
Definition conditioned (keep : Z → bool) (m : gmap Z Qc) : gmap Z Qc :=
  (λ p, p / Total (restrict keep m)) <$> restrict keep m.

End conditional.

(** ** myplot.py *)

Module myplot.

(** The figure of [pyplot]: the drawing calls made so far. *)
Inductive call : Type :=
  | bar (xs fs : list Qc) (kwargs : gmap string value).
Abbreviation figure := (list call).

Definition pyplot_bar (xs fs : list Qc) (kwargs : gmap string value)
    : M figure unit :=
  λ fig, Ret tt (fig ++ [bar xs fs kwargs]).

(** The names bound at the top level of the module, in the order of the
    file, and what each is bound to. *)
Inductive binding : Type := module_ | class_ | function_.
Definition globals : list (string * binding) :=
  [("math", module_); ("matplotlib", module_); ("pyplot", module_);
   ("np", module_); ("InfiniteList", class_); ("Underride", function_);
   ("Clf", function_); ("Plot", function_); ("Pmf", function_);
   ("Pmfs", function_); ("Hist", function_); ("Hists", function_);
   ("Shift", function_); ("Diff", function_); ("Cdf", function_);
   ("Cdfs", function_); ("Contour", function_); ("Config", function_);
   ("Show", function_); ("Save", function_); ("SaveFormat", function_)]%string.

(** The builtins the module uses. *)
Definition builtins : list (string * binding) :=
  [("list", class_); ("min", function_); ("range", function_);
   ("len", function_); ("enumerate", function_); ("zip", function_);
   ("sorted", function_)]%string.

(** Reading a name that is not local to a function: the module's globals,
    then the builtins, else [NameError]. *)
Definition load_global {S} (name : string) : M S binding :=
  match (list_to_map globals : gmap string binding) !! name with
  | Some b => ret b
  | None =>
      match (list_to_map builtins : gmap string binding) !! name with
      | Some b => ret b
      | None => raise (NameError name)
      end
  end.

(** [**b] in a call: the object must be a mapping, and no module, class or
    function is one. *)
Definition unpack_mapping {S} (b : binding) : M S (gmap string value) :=
  raise TypeError.

(** [d.setdefault(key, val)] *)
Definition setdefault (key : string) (val : value) (d : gmap string value)
    : gmap string value :=
  match d !! key with
  | Some _ => d
  | None => <[key := val]> d
  end.

(** [def Underride(d, **options)] *)
Definition Underride (d : option (gmap string value))
    (options : gmap string value) : gmap string value :=
  let d := default ∅ d in
  foldl (λ d kv, setdefault kv.1 kv.2 d) d (map_to_list options).

(** [def Diff(t)]: [[t[i+1] - t[i] for i in range(len(t)-1)]]; an index out
    of range raises [IndexError]. *)
Definition item {S} (t : list Qc) (i : nat) : M S Qc :=
  match t !! i with
  | Some x => ret x
  | None => raise IndexError
  end.
Definition Diff {S} (t : list Qc) : M S (list Qc) :=
  comprehension (seq 0 (length t - 1))
    (λ i, a ← item t (i + 1); b ← item t i; ret (a - b)).

(** A "Hist or Pmf object" of [myplot]: anything with a method [Render]
    and an attribute [name]. *)
Record renderable : Type := Renderable {
  Render : M figure (list Qc * list Qc);
  name : string
}.

(** [def Hist(hist, **options)] *)
Definition Hist (hist : renderable) (options : gmap string value)
    : M figure unit :=
  '(xs, fs) ← Render hist;
  diffs ← Diff xs;
  width ← min diffs;
  let options :=
    Underride (Some options)
      (list_to_map [("label", Str (name hist)); ("align", Str "center");
                    ("edgecolor", Str "blue"); ("width", Num width)]%string) in
  load_global "pyplot" ;;
  bar_options ← load_global "bar_options";
  kwargs ← unpack_mapping bar_options;
  pyplot_bar xs fs kwargs.

End myplot.

Import Pmf conditional.

(** ** Auxiliary definitions *)

(** Removing a list of values, one call of [Remove] after the other: what
    the loop of [ConditionPmf] does to the dictionary of the copy. *)
Definition remove_all (vals : list Z) (m : gmap Z Qc) : gmap Z Qc :=
  foldl (λ m val, delete val m) m vals.

(** The differences of adjacent elements, by recursion on the sequence:
    what [Diff] computes, index by index. *)
Fixpoint differences (first : Qc) (rest : list Qc) : list Qc :=
  match rest with
  | [] => []
  | next :: rest' => (next - first) :: differences next rest'
  end.

(** Outcomes can be compared by evaluation. *)
#[global] Instance exn_eq_dec : EqDecision exn.
Proof. solve_decision. Defined.
#[global] Instance value_eq_dec : EqDecision value.
Proof. solve_decision. Defined.
#[global] Instance obj_eq_dec : EqDecision obj.
Proof. solve_decision. Defined.
#[global] Instance call_eq_dec : EqDecision myplot.call.
Proof. solve_decision. Defined.
#[global] Instance outcome_eq_dec {St A : Type} `{EqDecision St, EqDecision A} :
  EqDecision (outcome St A).
Proof. solve_decision. Defined.

(** ** Concrete distributions and stores *)

Definition frac (a b : Z) : Qc := Q2Qc (Qmake a (Z.to_pos b)).

(** [{35:0.1, 36:0.1, 37:0.2, 38:0.3, 39:0.3}] *)
Definition weeks_pmf : gmap Z Qc :=
  list_to_map [(35%Z, frac 1 10); (36%Z, frac 1 10); (37%Z, frac 2 10);
               (38%Z, frac 3 10); (39%Z, frac 3 10)].
Definition weeks_heap : heap := [Obj weeks_pmf "weeks"].

(** [{38:0.3, 39:0.3}] and [{38:0.5, 39:0.5}] *)
Definition tail_pmf : gmap Z Qc := list_to_map [(38%Z, frac 3 10); (39%Z, frac 3 10)].
Definition even_pmf : gmap Z Qc := list_to_map [(38%Z, frac 1 2); (39%Z, frac 1 2)].
Definition even_heap : heap := [Obj even_pmf "even"].

(** [{1:0.0, 2:1.0}]: a value of mass zero. *)
Definition zero_mass_pmf : gmap Z Qc := list_to_map [(1%Z, 0); (2%Z, 1)].
Definition zero_mass_heap : heap := [Obj zero_mass_pmf "pmf"].

(** [{1:0.5, 2:1.0}]: total mass 1.5. *)
Definition unnormalized_pmf : gmap Z Qc := list_to_map [(1%Z, frac 1 2); (2%Z, 1)].
Definition unnormalized_heap : heap := [Obj unnormalized_pmf "pmf"].

(** The two tables of the relative-risk scenario: [{38:0.4, 39:0.6}] for
    first babies and [{38:0.5, 39:0.5}] for the others, and the store after
    both have been conditioned on week 38. *)
Definition first_pmf : gmap Z Qc := list_to_map [(38%Z, frac 4 10); (39%Z, frac 6 10)].
Definition risk_heap : heap := [Obj first_pmf "first"; Obj even_pmf "others"].
Definition risk_heap_conditioned : heap :=
  risk_heap ++ [Obj first_pmf "first babies"; Obj even_pmf "others"].

(** A histogram of two bars, at x = 1 and x = 2, and one of a single bar. *)
Definition two_bars : myplot.renderable :=
  myplot.Renderable (λ fig, Ret ([1; 1 + 1], [frac 1 2; frac 1 2]) fig) "hist".
Definition one_bar : myplot.renderable :=
  myplot.Renderable (λ fig, Ret ([1], [1]) fig) "hist".

(** ** myplot.py, the functions besides [Hist] *)

Module myplot_lib.

(** What the functions leave behind, in the order of execution: the calls
    into [matplotlib.pyplot], with their arguments, and the lines printed.
    Option values are numbers, strings and [None]; [True] and [False] are
    the numbers 1 and 0. *)
Inductive event : Type :=
  | clf
  | plot (xs ys : list Qc) (style : option value) (kwargs : gmap string value)
  | bar (xs fs : list Qc) (kwargs : gmap string value)
  | title (s : value)
  | xlabel (s : value)
  | ylabel (s : value)
  | xscale (v : value)
  | xticks (args : list value)
  | yscale (v : value)
  | yticks (args : list value)
  | axis (v : value)
  | legend (loc : value)
  | show
  | savefig (filename format : string) (dpi : Z)
  | print (args : list value)
  | print_list (head : value) (items : list Qc).
Abbreviation trace := (list event).

Definition emit (e : event) : M trace unit := λ t, Ret tt (t ++ [e]).

(** The keyword arguments of a call [f(..., k1=v1, ..., **star)]: a key
    given both ways is a [TypeError], raised before [f] is entered. *)
Definition keywords {S} (explicit : list (string * value))
    (star : gmap string value) : M S (gmap string value) :=
  if bool_decide (Exists (λ kv, is_Some (star !! kv.1)) explicit)
  then raise TypeError
  else ret (list_to_map explicit ∪ star).

(** Truth value of an object in [if]. *)
Definition truthy (v : value) : bool :=
  match v with
  | None_ => false
  | Num q => negb (bool_decide (q = 0))
  | Str s => negb (bool_decide (s = ""%string))
  end.

(** [*v] in a call: a string gives its characters, a number or [None] is
    not iterable. *)
Definition unpack {S} (v : value) : M S (list value) :=
  match v with
  | Str s => ret ((λ c, Str (String c "")) <$> String.list_ascii_of_string s)
  | _ => raise TypeError
  end.

(** A "Hist or Pmf object": anything with a method [Render] and an
    attribute [name]. *)
Record series : Type := Series {
  Render : M trace (list Qc * list Qc);
  name : string
}.

(** [def Clf()] *)
Definition Clf : M trace unit := emit clf.

(** [def Plot(xs, ys, style='', **options)] *)
Definition Plot (xs ys : list Qc) (style : value)
    (options : gmap string value) : M trace unit :=
  let options :=
    myplot.Underride (Some options)
      (list_to_map [("linewidth", Num (1 + 1 + 1)); ("alpha", Num (frac 1 2))]%string) in
  emit (plot xs ys (Some style) options).

(** The call [Plot(xs, ps, **options)]: a key [xs] or [ys] collides with a
    positional argument, a key [style] is the third parameter, the other
    keys are the options of [Plot]. *)
Definition call_Plot (xs ys : list Qc) (kwargs : gmap string value)
    : M trace unit :=
  if bool_decide (is_Some (kwargs !! "xs"%string) ∨ is_Some (kwargs !! "ys"%string))
  then raise TypeError
  else Plot xs ys (default (Str "") (kwargs !! "style"%string))
         (delete "style"%string kwargs).

(** A call [Plot(x, **kwargs)] with a single positional argument, which
    may be any object: [x] is bound to [xs], so a key [xs] is a second
    value for it; [ys] has no default and must be among the keywords; a
    key [style] is the third parameter.  A parameter that gets two values
    or none is a [TypeError], raised before [Plot] is entered.  What
    [Plot] does with arguments that are not sequences of numbers is left
    open: its body on such arguments is the parameter [body]. *)
Definition call_Plot_1
    (body : value → value → value → gmap string value → M trace unit)
    (x : value) (kwargs : gmap string value) : M trace unit :=
  if bool_decide (is_Some (kwargs !! "xs"%string)) then raise TypeError
  else
    match kwargs !! "ys"%string with
    | None => raise TypeError
    | Some y =>
        body x y (default (Str "") (kwargs !! "style"%string))
          (delete "style"%string (delete "ys"%string kwargs))
    end.

(** [def Pmf(pmf, **options)] *)
Definition Pmf (pmf : series) (options : gmap string value) : M trace unit :=
  '(xs, ps) ← Render pmf;
  let options :=
    myplot.Underride (Some options)
      (list_to_map [("label"%string, Str (name pmf))]) in
  call_Plot xs ps options.



(** [def Shift(xs, shift)] *)
Definition Shift (xs : list Qc) (shift : Qc) : list Qc :=
  (λ x, x + shift) <$> xs.

(** [def Hists(hists, **options)] *)
Definition Hists (hists : list series) (options : gmap string value)
    : M trace unit :=
  let width := frac 4 10 in
  let shifts := [- width; 0] in
  for_each (imap pair hists) (λ '(i, hist),
    '(xs, fs) ← Render hist;
    shift ← myplot.item shifts i;
    let xs := Shift xs shift in
    kwargs ← keywords [("label", Str (name hist)); ("width", Num width)]%string options;
    emit (bar xs fs kwargs)).

Section Cdf.
(** [math.log] on a positive number; the module [math] is a parameter.
    On zero and on negative numbers [math.log] raises [ValueError]. *)
Variable log : Qc → Qc.

Definition math_log {S} (x : Qc) : M S Qc :=
  if decide (0 < x) then ret (log x) else raise ValueError.

(** [t.pop()] and [t.pop(0)], for their effect on the list [t]: the list
    without its last, or first, element; [IndexError] on an empty list. *)
Definition pop {S} (t : list Qc) : M S (list Qc) :=
  match t with
  | [] => raise IndexError
  | _ :: _ => ret (removelast t)
  end.
Definition pop_0 {S} (t : list Qc) : M S (list Qc) :=
  match t with
  | [] => raise IndexError
  | _ :: t' => ret t'
  end.

(** [pyplot.plot] makes a line and sets every keyword as a property of
    it.  The scales are properties of the axes: a line has no property
    [xscale] or [yscale], and [pyplot.plot] rejects a keyword that names
    no property of a line with an exception, without drawing.  The class
    of that exception is matplotlib's choice ([TypeError] in matplotlib 1,
    [AttributeError] since matplotlib 2) and a parameter here.  Every
    other keyword is taken to name a property of a line, as in [Plot]. *)
Variable unknown_property : exn.

Definition pyplot_plot (xs ys : list Qc) (style : option value)
    (kwargs : gmap string value) : M trace unit :=
  if bool_decide (is_Some (kwargs !! "xscale"%string) ∨
                  is_Some (kwargs !! "yscale"%string))
  then raise unknown_property
  else emit (plot xs ys style kwargs).

(** [def Cdf(cdf, complement=False, transform=None, **options)] *)
Definition Cdf (cdf : series) (complement transform : value)
    (options : gmap string value) : M trace unit :=
  '(xs, ps) ← Render cdf;
  let '(complement, options) :=
    if bool_decide (transform = Str "exponential")
    then (Num 1, <["yscale"%string := Str "log"]> options)
    else (complement, options) in
  let '(complement, options) :=
    if bool_decide (transform = Str "pareto")
    then (Num 1, <["xscale"%string := Str "log"]>
                   (<["yscale"%string := Str "log"]> options))
    else (complement, options) in
  let ps := if truthy complement then (λ p, 1 - p) <$> ps else ps in
  '(xs, ps, options) ←
    (if bool_decide (transform = Str "weibull")
     then
       xs ← pop xs;
       ps ← pop ps;
       ps ← comprehension ps (λ p, l ← math_log (1 - p); ret (- l));
       ret (xs, ps, <["yscale"%string := Str "log"]>
                      (<["xscale"%string := Str "log"]> options))
     else ret (xs, ps, options));
  '(xs, ps, options) ←
    (if bool_decide (transform = Str "gumbel")
     then
       xs ← pop_0 xs;
       ps ← pop_0 ps;
       ps ← comprehension ps (λ p, l ← math_log p; ret (- l));
       ret (xs, ps, <["yscale"%string := Str "log"]> options)
     else ret (xs, ps, options));
  kwargs ← keywords [("label"%string, Str (name cdf))] options;
  pyplot_plot xs ps None kwargs.

(** The call [Cdf(cdf, complement, transform, **options)]: a key [cdf],
    [complement] or [transform] collides with a positional argument. *)
Definition call_Cdf (cdf : series) (complement transform : value)
    (kwargs : gmap string value) : M trace unit :=
  if bool_decide (is_Some (kwargs !! "cdf"%string) ∨
                  is_Some (kwargs !! "complement"%string) ∨
                  is_Some (kwargs !! "transform"%string))
  then raise TypeError
  else Cdf cdf complement transform kwargs.

(** [def Cdfs(cdfs, complement=False, transform=None, **options)] *)
Definition Cdfs (cdfs : list series) (complement transform : value)
    (options : gmap string value) : M trace unit :=
  for_each (imap pair cdfs) (λ '(i, cdf), call_Cdf cdf complement transform options).
End Cdf.

(** [def Config] with the parameter [**options] *)
Definition Config (options : gmap string value) : M trace unit :=
  let title_ := default (Str "") (options !! "title"%string) in
  emit (title title_) ;;
  let xlabel_ := default (Str "") (options !! "xlabel"%string) in
  emit (xlabel xlabel_) ;;
  let ylabel_ := default (Str "") (options !! "ylabel"%string) in
  emit (ylabel ylabel_) ;;
  match options !! "xscale"%string with
  | Some v => emit (xscale v)
  | None => ret tt
  end ;;
  match options !! "xticks"%string with
  | Some v => args ← unpack v; emit (xticks args)
  | None => ret tt
  end ;;
  match options !! "yscale"%string with
  | Some v => emit (yscale v)
  | None => ret tt
  end ;;
  match options !! "yticks"%string with
  | Some v => args ← unpack v; emit (yticks args)
  | None => ret tt
  end ;;
  match options !! "axis"%string with
  | Some v => emit (axis v)
  | None => ret tt
  end ;;
  let loc := default (Num 0) (options !! "loc"%string) in
  let legend_ := default (Num 1) (options !! "legend"%string) in
  if truthy legend_ then emit (legend loc) else ret tt.

(** [def Show] with the parameter [**options] *)
Definition Show (options : gmap string value) : M trace unit :=
  Config options ;;
  emit show.

(** [def SaveFormat(root, format='eps')] *)
Definition SaveFormat (root : string) (format : option string) : M trace unit :=
  let format := default "eps"%string format in
  let filename := (root +:+ "." +:+ format)%string in
  emit (print [Str "Writing"; Str filename]) ;;
  emit (savefig filename format 300).

(** [def Save(root=None, formats=None, **options)] *)
Definition Save (root : option string) (formats : option (list string))
    (options : gmap string value) : M trace unit :=
  Config options ;;
  let formats := default ["pdf"; "png"]%string formats in
  if bool_decide (root ≠ None ∧ root ≠ Some ""%string)
  then for_each formats (λ format, SaveFormat (default ""%string root) (Some format))
  else ret tt.

End myplot_lib.

(** ** conditional.py, [MakeFigure] *)

Module conditional_figure.

(** [MakeFigure] works on the Pmf objects and on the figure: its state is
    the store together with the trace of calls and printed lines. *)
Record world : Type := World { objects : heap; calls : myplot_lib.trace }.

Definition on_objects {A} (m : M heap A) : M world A :=
  λ w, match m (objects w) with
       | Ret a h => Ret a (World h (calls w))
       | Raise e h => Raise e (World h (calls w))
       end.

Definition on_calls {A} (m : M myplot_lib.trace A) : M world A :=
  λ w, match m (calls w) with
       | Ret a t => Ret a (World (objects w) t)
       | Raise e t => Raise e (World (objects w) t)
       end.

(** [for x in xs: acc = body(x, acc)], for a loop that updates a local
    variable. *)
Fixpoint for_each_with {S A B} (xs : list A) (acc : B) (body : A → B → M S B)
    : M S B :=
  match xs with
  | [] => ret acc
  | x :: xs' => acc' ← body x acc; for_each_with xs' acc' body
  end.

(** [table.pmf.name] *)
Definition pmf_name (table_ : table) : M world string :=
  o ← on_objects (deref (pmf table_));
  ret (Pmf.name o).

(** [weeks = range(35, 46)] *)
Definition weeks : list Z := seqZ 35 11.

(** The body of the inner loop of [MakeFigure], [for week in weeks]; the
    probability it appends to [probs[name]] is its result. *)
Definition week_body (table_ : table) (week : Z) : M world Qc :=
  cond ← on_objects (ConditionOnWeeks (pmf table_) (Some week) None);
  prob ← on_objects (Prob cond week);
  name' ← pmf_name table_;
  on_calls (myplot_lib.emit
              (myplot_lib.print [Num (Qc_of_Z week); Num prob; Str name'])) ;;
  ret prob.

(** The body of the outer loop, [for table in [firsts, others]], on the
    dictionary [probs]. *)
Definition table_body (table_ : table) (probs : gmap string (list Qc))
    : M world (gmap string (list Qc)) :=
  name ← pmf_name table_;
  ps ← comprehension weeks (week_body table_);
  ret (<[name := ps]> probs).

(** The body of the plotting loop, [for name, ps in probs.iteritems()]. *)
Definition line_body (entry : string * list Qc) : M world unit :=
  let '(name, ps) := entry in
  on_calls (myplot_lib.emit
              (myplot_lib.plot (Qc_of_Z <$> weeks) ps None
                 (list_to_map [("label"%string, Str name)]))) ;;
  on_calls (myplot_lib.emit (myplot_lib.print_list (Str name) ps)).

(** The keywords of the last statement of [MakeFigure],
    [myplot.Plot('conditional', xlabel=..., ylabel=..., title=..., show=True)]. *)
Definition last_keywords : gmap string value :=
  list_to_map
    [("xlabel", Str "weeks");
     ("ylabel", Str "Prob{x $=$ weeks | x $\geq$ weeks}");
     ("title", Str "Conditional Probability");
     ("show", Num 1)]%string.

Section MakeFigure.
(** [probs.iteritems()]: the entries of the dictionary in the order of its
    hash table.  The language does not fix that order (it follows the
    hash values of the keys and the history of the dictionary); the order
    is a parameter. *)
Variable iteritems : gmap string (list Qc) → list (string * list Qc).

(** The body of [myplot.Plot] on arguments that are any objects. *)
Variable Plot : value → value → value → gmap string value → M myplot_lib.trace unit.

(** [def MakeFigure(firsts, others)] *)
Definition MakeFigure (firsts others : table) : M world unit :=
  probs ← for_each_with [firsts; others] (∅ : gmap string (list Qc)) table_body;
  on_calls (myplot_lib.emit myplot_lib.clf) ;;
  for_each (iteritems probs) line_body ;;
  on_calls (myplot_lib.call_Plot_1 Plot (Str "conditional") last_keywords).
End MakeFigure.

End conditional_figure.

(** ** What [MakeFigure] is expected to compute *)

(** The mass of a dictionary at the values from [week] on. *)
Definition tail_mass (m : gmap Z Qc) (week : Z) : Qc :=
  Total (restrict (λ x, (week <=? x)%Z) m).

(** The probability of [week] given that the value is at least [week]. *)
Definition conditional_prob (m : gmap Z Qc) (week : Z) : Qc :=
  prob m week / tail_mass m week.

(** The weeks that the inner loop gets through: those before the first
    week from which on there is no mass. *)
Fixpoint weeks_done (m : gmap Z Qc) (weeks : list Z) : list Z :=
  match weeks with
  | [] => []
  | week :: weeks' =>
      if decide (tail_mass m week = 0) then []
      else week :: weeks_done m weeks'
  end.

(** The objects that the inner loop allocates: one conditioned copy per
    week it gets through, and the copy left restricted and not normalised
    at the week where [Normalize] raises. *)
Fixpoint weeks_objects (m : gmap Z Qc) (weeks : list Z) : list obj :=
  match weeks with
  | [] => []
  | week :: weeks' =>
      if decide (tail_mass m week = 0)
      then [Obj (restrict (λ x, (week <=? x)%Z) m) "conditional"]
      else Obj (conditioned (λ x, (week <=? x)%Z) m) "conditional"
           :: weeks_objects m weeks'
  end.

(** The line printed for one week. *)
Definition week_line (m : gmap Z Qc) (name : string) (week : Z)
    : myplot_lib.event :=
  myplot_lib.print [Num (Qc_of_Z week); Num (conditional_prob m week); Str name].

(** The line drawn and the line printed for one entry of [probs]. *)
Definition entry_events (entry : string * list Qc) : list myplot_lib.event :=
  [myplot_lib.plot (Qc_of_Z <$> conditional_figure.weeks) entry.2 None
     (list_to_map [("label"%string, Str entry.1)]);
   myplot_lib.print_list (Str entry.1) entry.2].

(** An event that is a printed line, not a call into [pyplot]. *)
Definition is_print (e : myplot_lib.event) : bool :=
  match e with
  | myplot_lib.print _ | myplot_lib.print_list _ _ => true
  | _ => false
  end.

(** A stand-in for the body of [myplot.Plot] on arguments that are any
    objects: it draws nothing. *)
Definition no_Plot (xs ys style : value) (options : gmap string value)
    : M myplot_lib.trace unit :=
  ret tt.

(** Two distributions that reach week 45, in one store. *)
Definition long_pmf : gmap Z Qc := list_to_map [(38%Z, frac 1 2); (45%Z, frac 1 2)].
Definition long_heap : heap := [Obj long_pmf "first"; Obj long_pmf "others"].

(** ** The events expected of the plotting functions *)

(** The bar that [Hists] draws for the histogram at position [i], whose
    [Render] gives [(xs, fs)]: the first one is moved 0.4 to the left, the
    second one stays, both are 0.4 wide. *)
Definition Hists_bar (options : gmap string value) (i : nat)
    (hist : myplot_lib.series) (xs fs : list Qc) : myplot_lib.event :=
  myplot_lib.bar
    (myplot_lib.Shift xs (match i with O => - frac 4 10 | _ => 0 end)) fs
    (list_to_map [("label", Str (myplot_lib.name hist));
                  ("width", Num (frac 4 10))]%string ∪ options).


(** The transforms of [Cdf] that plot the complement on a logarithmic
    y axis. *)
Definition scaled (transform : value) : bool :=
  bool_decide (transform = Str "exponential") || bool_decide (transform = Str "pareto").

(** The keyword arguments of the line that [Cdf] draws, given the options
    as the transform left them. *)
Definition Cdf_kwargs (cdf : myplot_lib.series) (options : gmap string value)
    : gmap string value :=
  list_to_map [("label"%string, Str (myplot_lib.name cdf))] ∪ options.

(** What [Save] adds for one format: the line printed and the file saved. *)
Definition saved (root format : string) : list myplot_lib.event :=
  [myplot_lib.print [Str "Writing"; Str (root +:+ "." +:+ format)];
   myplot_lib.savefig (root +:+ "." +:+ format) format 300].

(** Two histograms and a distribution whose [Render] gives fixed series. *)
Definition fixed_series (xs ys : list Qc) (name : string) : myplot_lib.series :=
  myplot_lib.Series (λ t, Ret (xs, ys) t) name.
Definition boys : myplot_lib.series := fixed_series [1; 1 + 1] [frac 1 2; frac 1 2] "boys".
Definition girls : myplot_lib.series := fixed_series [1; 1 + 1] [frac 1 4; frac 3 4] "girls".

(** A distribution function through three points, and a stand-in for the
    logarithm. *)
Definition three_steps : myplot_lib.series :=
  fixed_series [1; 1 + 1; 1 + 1 + 1] [frac 1 4; frac 1 2; 1] "steps".
Definition log_stand_in (x : Qc) : Qc := x - 1.

(** ** Tactics *)

Ltac run := unfold mbind, mret, M_bind, M_ret, bind, ret, raise; simpl.
Ltac step := unfold mbind, M_bind, bind, mret, M_ret, ret, raise; cbv beta iota zeta.
Ltac by_evaluation := apply (bool_decide_unpack _); vm_compute; exact I.

(** * Properties *)

(** ** Rationals *)

Lemma Qc_div_mult_inv (p t : Qc) : t ≠ 0 → p * (1 / t) = p / t.
Proof. intros. field. done. Qed.

Lemma Qc_div_self (t : Qc) : t ≠ 0 → t * (1 / t) = 1.
Proof. intros. field. done. Qed.

(** ** Total mass *)

Section total.
Implicit Types m : gmap Z Qc.

Lemma Total_empty : Total ∅ = 0.
Proof. apply map_fold_empty. Qed.

Lemma Total_insert m k p :
  m !! k = None → Total (<[k := p]> m) = p + Total m.
Proof.
  intros Hk. unfold Total. apply (map_fold_insert_L (λ _ p acc, p + acc)); [|done].
  intros ?? x y b _ _ _. ring.
Qed.

Lemma Total_scale m c : Total ((λ p, p * c) <$> m) = Total m * c.
Proof.
  induction m as [|k p m Hk IH] using map_ind.
  - rewrite fmap_empty, Total_empty. ring.
  - rewrite fmap_insert, !Total_insert, ?IH; [ring|done|].
    by rewrite lookup_fmap, Hk.
Qed.

Lemma Total_normalized m :
  Total m ≠ 0 → Total ((λ p, p * (1 / Total m)) <$> m) = 1.
Proof. intros. rewrite Total_scale. by apply Qc_div_self. Qed.

Lemma sum_foldr (ps : list Qc) : sum ps = foldr Qcplus 0 ps.
Proof.
  unfold sum. generalize 0.
  induction ps as [|p ps IH]; intros a; simpl; [done|].
  rewrite IH. clear IH. revert a.
  induction ps as [|p' ps IH]; intros a; simpl; [ring|].
  rewrite IH. ring.
Qed.

(** The sum of the masses of the values is the total mass. *)
Lemma sum_prob_values m : sum (prob m <$> values m) = Total m.
Proof.
  rewrite sum_foldr. unfold Total, values. rewrite map_fold_foldr.
  assert (Hin : ∀ kp, kp ∈ map_to_list m → m !! kp.1 = Some kp.2).
  { intros [k p]. apply elem_of_map_to_list. }
  induction (map_to_list m) as [|[k p] l IH]; [done|].
  rewrite !fmap_cons. cbn [foldr uncurry fst].
  rewrite IH by (intros; apply Hin; by right).
  unfold prob. pose proof (Hin (k, p) ltac:(left)) as Hk. simpl in Hk.
  by rewrite Hk.
Qed.
End total.

(** ** Running the methods of a Pmf object *)

Section methods.
Variables (h : heap) (self : ref) (o : obj).
Hypothesis Hself : h !! self = Some o.

Lemma deref_run : deref self h = Ret o h.
Proof using Hself. unfold deref. by rewrite Hself. Qed.

Lemma Copy_run name' :
  Copy self name' h = Ret (length h) (h ++ [Obj (d o) name']).
Proof using Hself. unfold Copy. run. by rewrite deref_run. Qed.

Lemma Remove_run val :
  Remove self val h = Ret tt (<[self := Obj (delete val (d o)) (Pmf.name o)]> h).
Proof using Hself. unfold Remove. run. by rewrite deref_run. Qed.

Lemma Normalize_run :
  Normalize self h =
    if decide (Total (d o) = 0) then Raise EmptyDistributionError h
    else Ret tt (<[self := Obj ((λ p, p * (1 / Total (d o))) <$> d o) (Pmf.name o)]> h).
Proof using Hself.
  unfold Normalize. run. rewrite deref_run. by case_decide.
Qed.

Lemma Values_run : Values self h = Ret (values (d o)) h.
Proof using Hself. unfold Values. run. by rewrite deref_run. Qed.

Lemma Prob_run val : Prob self val h = Ret (prob (d o) val) h.
Proof using Hself. unfold Prob. run. by rewrite deref_run. Qed.

Lemma comprehension_Prob_run vs :
  comprehension vs (λ v, Prob self v) h = Ret (prob (d o) <$> vs) h.
Proof using Hself.
  induction vs as [|v vs IH]; [done|].
  cbn [comprehension]. run. by rewrite Prob_run, IH.
Qed.

Lemma sum_Prob_run : sum_Prob self h = Ret (Total (d o)) h.
Proof using Hself.
  unfold sum_Prob. run.
  by rewrite Values_run, comprehension_Prob_run, sum_prob_values.
Qed.
End methods.

Lemma lookup_valid (h : heap) (self : ref) (o : obj) :
  h !! self = Some o → (self < length h)%nat.
Proof. apply lookup_lt_Some. Qed.

Lemma for_each_Remove_run (vals : list Z) (h : heap) (self : ref) (o : obj) :
  h !! self = Some o →
  for_each vals (λ val, Remove self val) h =
    Ret tt (<[self := Obj (remove_all vals (d o)) (Pmf.name o)]> h).
Proof.
  revert h o. induction vals as [|v vals IH]; intros h o Hself.
  - cbn. unfold ret. destruct o. by rewrite list_insert_id.
  - cbn [for_each]. run. rewrite (Remove_run h self o Hself).
    erewrite IH by (apply list_lookup_insert_eq; by eapply lookup_valid).
    by rewrite list_insert_insert_eq.
Qed.

Lemma lookup_remove_all (vals : list Z) (m : gmap Z Qc) (k : Z) :
  remove_all vals m !! k = if decide (k ∈ vals) then None else m !! k.
Proof.
  revert m. induction vals as [|v vals IH]; intros m; [done|].
  cbn. fold (remove_all vals (delete v m)). rewrite IH.
  destruct (decide (k = v)) as [->|Hne].
  - rewrite lookup_delete_eq, (decide_True (P := v ∈ v :: vals)) by left.
    by destruct (decide (v ∈ vals)).
  - rewrite lookup_delete_ne by done.
    destruct (decide (k ∈ vals)) as [Hin|Hin].
    + by rewrite decide_True by (by right).
    + rewrite decide_False; [done|]. by intros [?|?]%elem_of_cons.
Qed.

(** Removing the values that the filter function accepts leaves the
    dictionary restricted to the values it rejects. *)
Lemma remove_filtered (f : Z → bool) (m : gmap Z Qc) :
  remove_all (List.filter f (values m)) m = restrict (λ v, negb (f v)) m.
Proof.
  apply map_eq. intros k. rewrite lookup_remove_all. unfold restrict.
  rewrite map_lookup_filter. destruct (m !! k) as [p|] eqn:Hk; simpl.
  - destruct (f k) eqn:Hf.
    + rewrite decide_True.
      * by rewrite option_guard_False.
      * apply list_elem_of_In, filter_In. split; [|done].
        apply list_elem_of_In, list_elem_of_fmap. exists (k, p). split; [done|].
        by apply elem_of_map_to_list.
    + rewrite decide_False.
      * by rewrite option_guard_True.
      * intros [_ Hin]%list_elem_of_In%filter_In. congruence.
  - by case_decide.
Qed.

(** ** ConditionPmf, step by step *)

Lemma lookup_fresh (h : heap) (o : obj) : (h ++ [o]) !! length h = Some o.
Proof. by rewrite list_lookup_middle. Qed.

Lemma insert_fresh (h : heap) (o o' : obj) :
  <[length h := o']> (h ++ [o]) = h ++ [o'].
Proof. by rewrite insert_app_r_alt, Nat.sub_diag by done. Qed.

Lemma rescale_conditioned (keep : Z → bool) (m : gmap Z Qc) :
  Total (restrict keep m) ≠ 0 →
  (λ p, p * (1 / Total (restrict keep m))) <$> restrict keep m = conditioned keep m.
Proof.
  intros Hne. unfold conditioned. apply map_fmap_ext. intros _ p _.
  by apply Qc_div_mult_inv.
Qed.

(** The whole run of [ConditionPmf] on a valid reference: the copy is the
    next object of the store; it is left restricted and not normalised when
    [Normalize] raises. *)
Lemma ConditionPmf_run (h : heap) (pmf : ref) (o : obj) (f : Z → bool)
    (name : option string) :
  h !! pmf = Some o →
  let name' := default "conditional"%string name in
  let keep := λ v, negb (f v) in
  ConditionPmf pmf f name h =
    if decide (Total (restrict keep (d o)) = 0)
    then Raise EmptyDistributionError (h ++ [Obj (restrict keep (d o)) name'])
    else Ret (length h) (h ++ [Obj (conditioned keep (d o)) name']).
Proof.
  intros Hpmf name' keep. unfold ConditionPmf. fold name'. run.
  rewrite (Copy_run h pmf o Hpmf).
  rewrite (Values_run _ pmf o) by (by apply lookup_app_l_Some).
  erewrite for_each_Remove_run by apply lookup_fresh.
  rewrite insert_fresh. cbn [d Pmf.name]. rewrite remove_filtered. fold keep.
  erewrite Normalize_run by apply lookup_fresh.
  cbn [d Pmf.name]. case_decide; [done|].
  by rewrite insert_fresh, rescale_conditioned.
Qed.

Lemma lookup_restrict (keep : Z → bool) (m : gmap Z Qc) (v : Z) :
  restrict keep m !! v = if keep v then m !! v else None.
Proof.
  unfold restrict. rewrite map_lookup_filter.
  destruct (m !! v) as [p|]; simpl; [|by destruct (keep v)].
  destruct (keep v) eqn:Hk.
  - by rewrite option_guard_True.
  - by rewrite option_guard_False.
Qed.

Lemma elem_of_values (m : gmap Z Qc) (v : Z) : v ∈ values m ↔ is_Some (m !! v).
Proof.
  unfold values. rewrite list_elem_of_fmap. split.
  - intros [[k p] [-> Hin]]. apply elem_of_map_to_list in Hin. by exists p.
  - intros [p Hp]. exists (v, p). split; [done|]. by apply elem_of_map_to_list.
Qed.

Lemma values_conditioned (keep : Z → bool) (m : gmap Z Qc) (v : Z) :
  v ∈ values (conditioned keep m) ↔ v ∈ values m ∧ keep v = true.
Proof.
  rewrite !elem_of_values. unfold conditioned.
  rewrite lookup_fmap, fmap_is_Some, lookup_restrict.
  destruct (keep v).
  - split; [by intros ?|by intros [? _]].
  - split; [by intros [? ?]|by intros [_ ?]].
Qed.

Lemma prob_conditioned (keep : Z → bool) (m : gmap Z Qc) (v : Z) :
  prob (conditioned keep m) v =
    if keep v then prob m v / Total (restrict keep m) else 0.
Proof.
  unfold prob, conditioned. rewrite lookup_fmap, lookup_restrict.
  destruct (keep v); [|done].
  destruct (m !! v) as [p|]; simpl; [done|].
  unfold Qcdiv. by rewrite Qcmult_0_l.
Qed.

Lemma Total_conditioned (keep : Z → bool) (m : gmap Z Qc) :
  Total (restrict keep m) ≠ 0 → Total (conditioned keep m) = 1.
Proof.
  intros Hne. rewrite <- rescale_conditioned by done. by apply Total_normalized.
Qed.

Lemma restrict_ext (keep keep' : Z → bool) (m : gmap Z Qc) :
  (∀ v, keep v = keep' v) → restrict keep m = restrict keep' m.
Proof. intros E. apply map_eq. intros v. by rewrite !lookup_restrict, E. Qed.

Lemma restrict_all (m : gmap Z Qc) : restrict (λ _, true) m = m.
Proof. apply map_eq. intros v. by rewrite lookup_restrict. Qed.

Lemma restrict_none (m : gmap Z Qc) : restrict (λ _, false) m = ∅.
Proof. apply map_eq. intros v. by rewrite lookup_restrict, lookup_empty. Qed.

(** ** Properties of [Pmf] *)

(** C9.  [Prob] of a value that is not in the dictionary of the
    distribution returns exactly 0 and does not raise; the store is left as
    it was. *)
Theorem Prob_absent_is_zero (h : heap) (self : ref) (o : obj) (val : Z) :
  h !! self = Some o →
  d o !! val = None →
  Prob self val h = Ret 0 h.
Proof.
  intros Hself Hval. rewrite (Prob_run h self o Hself).
  unfold prob. by rewrite Hval.
Qed.

(** C4.  On a distribution of total mass different from zero, [Normalize]
    returns and afterwards [sum(d.Prob(v) for v in d.Values())] is 1; on
    total mass zero it raises [EmptyDistributionError], an error of the
    division-by-zero class; and it raises in no other case. *)
Theorem Normalize_sums_to_one (h : heap) (self : ref) (o : obj) :
  h !! self = Some o →
  (Total (d o) ≠ 0 →
     ∃ h', Normalize self h = Ret tt h' ∧ sum_Prob self h' = Ret 1 h') ∧
  (Total (d o) = 0 →
     Normalize self h = Raise EmptyDistributionError h ∧
     is_division_by_zero_class EmptyDistributionError = true) ∧
  (is_Some (raised (Normalize self h)) ↔ Total (d o) = 0).
Proof.
  intros Hself. rewrite (Normalize_run h self o Hself).
  split; [|split].
  - intros Hne. rewrite decide_False by done.
    eexists. split; [done|].
    erewrite sum_Prob_run
      by (apply list_lookup_insert_eq; by eapply lookup_valid).
    cbn [d]. by rewrite Total_normalized.
  - intros Hz. by rewrite decide_True.
  - case_decide; simpl.
    + split; [done|]. by eexists.
    + split; [by intros [? ?]|done].
Qed.

Lemma Qc_this_neq (x y : Qc) : this x ≠ this y → x ≠ y.
Proof. congruence. Qed.

Lemma Prob_absent_is_zero_witness : Prob 0%nat 40%Z weeks_heap = Ret 0 weeks_heap.
Proof. by apply (Prob_absent_is_zero weeks_heap 0%nat (Obj weeks_pmf "weeks") 40%Z). Defined.

Lemma Normalize_sums_to_one_witness :
  ∃ h', Normalize 0%nat unnormalized_heap = Ret tt h' ∧ sum_Prob 0%nat h' = Ret 1 h'.
Proof.
  apply (Normalize_sums_to_one unnormalized_heap 0%nat (Obj unnormalized_pmf "pmf"));
    [reflexivity|].
  apply Qc_this_neq. vm_compute. discriminate.
Defined.

(** ** Properties of [ConditionPmf] *)

(** C1, under the condition that decides it.  When the values that
    [filter_func] rejects have a total mass different from zero, [ConditionPmf] returns a new object,
    under the given name, whose values are exactly the values of [pmf] on
    which [filter_func] is false, each with its mass divided by the mass
    that is left, so that the masses sum to 1. *)
Theorem ConditionPmf_conditioned (h : heap) (pmf : ref) (o : obj)
    (filter_func : Z → bool) (name : option string) :
  h !! pmf = Some o →
  Total (restrict (λ v, negb (filter_func v)) (d o)) ≠ 0 →
  ∃ cond : obj,
    ConditionPmf pmf filter_func name h = Ret (length h) (h ++ [cond]) ∧
    h !! length h = None ∧
    Pmf.name cond = default "conditional"%string name ∧
    (∀ v, v ∈ values (d cond) ↔ v ∈ values (d o) ∧ filter_func v = false) ∧
    (∀ v, filter_func v = false →
       prob (d cond) v =
         prob (d o) v / Total (restrict (λ v, negb (filter_func v)) (d o))) ∧
    sum_Prob (length h) (h ++ [cond]) = Ret 1 (h ++ [cond]).
Proof.
  intros Hpmf Hne. eexists. split; [|split; [|split; [|split; [|split]]]].
  - rewrite (ConditionPmf_run h pmf o filter_func name Hpmf).
    by rewrite decide_False.
  - by apply lookup_ge_None.
  - done.
  - intros v. cbn [d]. rewrite values_conditioned.
    by rewrite negb_true_iff.
  - intros v Hf. cbn [d]. by rewrite prob_conditioned, Hf.
  - erewrite sum_Prob_run by apply lookup_fresh.
    cbn [d]. by rewrite Total_conditioned.
Qed.

Lemma ConditionPmf_conditioned_witness :
  ∃ cond : obj,
    ConditionPmf 0%nat (λ v, (v <? 38)%Z) None weeks_heap = Ret 1%nat (weeks_heap ++ [cond]) ∧
    weeks_heap !! 1%nat = None ∧
    Pmf.name cond = "conditional"%string ∧
    (∀ v, v ∈ values (d cond) ↔ v ∈ values weeks_pmf ∧ (v <? 38)%Z = false) ∧
    (∀ v, (v <? 38)%Z = false →
       prob (d cond) v =
         prob weeks_pmf v / Total (restrict (λ v, negb (v <? 38)%Z) weeks_pmf)) ∧
    sum_Prob 1%nat (weeks_heap ++ [cond]) = Ret 1 (weeks_heap ++ [cond]).
Proof.
  apply (ConditionPmf_conditioned weeks_heap 0%nat (Obj weeks_pmf "weeks")
           (λ v, (v <? 38)%Z) None); [reflexivity|].
  apply Qc_this_neq. vm_compute. discriminate.
Defined.

(** C1 with "at least one value survives" as its only condition does not
    hold: on [{1:0.0, 2:1.0}] with the filter [x == 2] the value 1, of mass
    zero, survives, and [ConditionPmf] raises instead of returning a
    distribution. *)
Lemma ConditionPmf_zero_mass_survivor :
  (1%Z ∈ values zero_mass_pmf ∧ (1 =? 2)%Z = false) ∧
  ConditionPmf 0%nat (λ v, (v =? 2)%Z) None zero_mass_heap =
    Raise EmptyDistributionError
      (zero_mass_heap ++ [Obj {[ 1%Z := 0 ]} "conditional"]).
Proof.
  split.
  - split; [|done]. apply elem_of_values. by exists 0.
  - rewrite (ConditionPmf_run zero_mass_heap 0%nat (Obj zero_mass_pmf "pmf")) by done.
    cbn [d default].
    assert (restrict (λ v, negb (v =? 2)%Z) zero_mass_pmf = {[ 1%Z := 0 ]}) as ->.
    { apply map_eq. intros v. rewrite lookup_restrict. unfold zero_mass_pmf.
      destruct (decide (v = 1%Z)) as [->|?]; [done|].
      destruct (decide (v = 2%Z)) as [->|?]; [done|].
      rewrite lookup_singleton_ne by done.
      destruct (negb _); [|done]. simpl.
      by rewrite !lookup_insert_ne, lookup_empty by done. }
    by rewrite decide_True by (by rewrite <- insert_empty, Total_insert, Total_empty).
Qed.

(** C3.  With a filter function that is true on every value, every value
    is removed from the copy, [Normalize] meets total mass zero, and
    [ConditionPmf] raises [EmptyDistributionError], an error of the
    division-by-zero class, to its caller: it does not return. *)
Theorem ConditionPmf_all_removed_raises (h : heap) (pmf : ref) (o : obj)
    (name : option string) :
  h !! pmf = Some o →
  ConditionPmf pmf (λ _, true) name h =
    Raise EmptyDistributionError
      (h ++ [Obj ∅ (default "conditional"%string name)]) ∧
  is_division_by_zero_class EmptyDistributionError = true.
Proof.
  intros Hpmf. split; [|done].
  rewrite (ConditionPmf_run h pmf o (λ _, true) name Hpmf). cbn [negb].
  rewrite restrict_none. by rewrite decide_True by apply Total_empty.
Qed.

Lemma ConditionPmf_all_removed_raises_witness :
  ConditionPmf 0%nat (λ _, true) None weeks_heap =
    Raise EmptyDistributionError (weeks_heap ++ [Obj ∅ "conditional"]) ∧
  is_division_by_zero_class EmptyDistributionError = true.
Proof.
  by apply (ConditionPmf_all_removed_raises weeks_heap 0%nat (Obj weeks_pmf "weeks") None).
Defined.

(** C7.  With a filter function that is false on every value, on a
    distribution whose masses sum to 1, [ConditionPmf] returns a copy with
    the same dictionary: [Prob] of every value on the result is [Prob] of
    that value on [pmf]. *)
Theorem ConditionPmf_nothing_removed (h : heap) (pmf : ref) (o : obj)
    (name : option string) :
  h !! pmf = Some o →
  Total (d o) = 1 →
  let h' := h ++ [Obj (d o) (default "conditional"%string name)] in
  ConditionPmf pmf (λ _, false) name h = Ret (length h) h' ∧
  ∀ v, Prob (length h) v h' = Ret (prob (d o) v) h' ∧
       Prob pmf v h = Ret (prob (d o) v) h.
Proof.
  intros Hpmf Hone h'. split.
  - rewrite (ConditionPmf_run h pmf o (λ _, false) name Hpmf). cbn [negb].
    unfold conditioned. rewrite restrict_all, Hone.
    rewrite decide_False by (intros E; discriminate E).
    replace ((λ p : Qc, p / 1) <$> d o) with (d o); [done|].
    rewrite <- (map_fmap_id (d o)) at 1.
    apply map_fmap_ext. intros _ p _. symmetry. apply (right_id 1 Qcdiv).
  - intros v. split.
    + by rewrite (Prob_run h' (length h) _ (lookup_fresh h _)).
    + by rewrite (Prob_run h pmf o Hpmf).
Qed.

Lemma Qc_this_eq (x y : Qc) : this x = this y → x = y.
Proof. intros E. apply Qc_is_canon. by rewrite E. Qed.

Lemma ConditionPmf_nothing_removed_witness :
  ConditionPmf 0%nat (λ _, false) None even_heap =
    Ret 1%nat (even_heap ++ [Obj even_pmf "conditional"]) ∧
  ∀ v, Prob 1%nat v (even_heap ++ [Obj even_pmf "conditional"]) =
         Ret (prob even_pmf v) (even_heap ++ [Obj even_pmf "conditional"]) ∧
       Prob 0%nat v even_heap = Ret (prob even_pmf v) even_heap.
Proof.
  apply (ConditionPmf_nothing_removed even_heap 0%nat (Obj even_pmf "even") None);
    [reflexivity|].
  apply Qc_this_eq. vm_compute. reflexivity.
Defined.

(** C8.  [Copy] returns a reference to a new object with the same
    dictionary; removing from the copy or normalising it leaves the object
    behind [pmf] as it was.  So after [ConditionPmf], whether it returned
    or raised, [Values] and [Prob] of the original give what they gave
    before. *)
Theorem Copy_shares_nothing (h : heap) (pmf : ref) (o : obj) (name' : string) :
  h !! pmf = Some o →
  let copy := length h in
  let h' := h ++ [Obj (d o) name'] in
  (Copy pmf name' h = Ret copy h' ∧ copy ≠ pmf ∧
   h' !! copy = Some (Obj (d o) name') ∧ h' !! pmf = Some o) ∧
  (∀ val, final_state (Remove copy val h') !! pmf = Some o) ∧
  (final_state (Normalize copy h') !! pmf = Some o) ∧
  (∀ filter_func name,
     let h'' := final_state (ConditionPmf pmf filter_func name h) in
     h'' !! pmf = Some o ∧
     Values pmf h'' = Ret (values (d o)) h'' ∧
     ∀ v, Prob pmf v h'' = Ret (prob (d o) v) h'').
Proof.
  intros Hpmf copy h'.
  assert (Hlt : (pmf < length h)%nat) by by eapply lookup_valid.
  assert (Hne : copy ≠ pmf) by (unfold copy; lia).
  assert (Hcopy : h' !! copy = Some (Obj (d o) name')) by apply lookup_fresh.
  assert (Hpmf' : h' !! pmf = Some o) by by apply lookup_app_l_Some.
  split; [|split; [|split]].
  - by rewrite (Copy_run h pmf o Hpmf).
  - intros val. rewrite (Remove_run h' copy _ Hcopy). simpl.
    by rewrite list_lookup_insert_ne.
  - rewrite (Normalize_run h' copy _ Hcopy). case_decide; simpl; [done|].
    by rewrite list_lookup_insert_ne.
  - intros filter_func name h''.
    assert (Hpmf'' : h'' !! pmf = Some o).
    { unfold h''. rewrite (ConditionPmf_run h pmf o filter_func name Hpmf).
      case_decide; simpl; by apply lookup_app_l_Some. }
    split; [done|]. split.
    + by rewrite (Values_run h'' pmf o Hpmf'').
    + intros v. by rewrite (Prob_run h'' pmf o Hpmf'').
Qed.

Lemma Copy_shares_nothing_witness :
  (Copy 0%nat "copy" weeks_heap = Ret 1%nat (weeks_heap ++ [Obj weeks_pmf "copy"]) ∧
   1%nat ≠ 0%nat ∧
   (weeks_heap ++ [Obj weeks_pmf "copy"]) !! 1%nat = Some (Obj weeks_pmf "copy") ∧
   (weeks_heap ++ [Obj weeks_pmf "copy"]) !! 0%nat = Some (Obj weeks_pmf "weeks")) ∧
  (∀ val, final_state (Remove 1%nat val (weeks_heap ++ [Obj weeks_pmf "copy"])) !! 0%nat
          = Some (Obj weeks_pmf "weeks")) ∧
  (final_state (Normalize 1%nat (weeks_heap ++ [Obj weeks_pmf "copy"])) !! 0%nat
   = Some (Obj weeks_pmf "weeks")) ∧
  (∀ filter_func name,
     let h'' := final_state (ConditionPmf 0%nat filter_func name weeks_heap) in
     h'' !! 0%nat = Some (Obj weeks_pmf "weeks") ∧
     Values 0%nat h'' = Ret (values weeks_pmf) h'' ∧
     ∀ v, Prob 0%nat v h'' = Ret (prob weeks_pmf v) h'').
Proof.
  by apply (Copy_shares_nothing weeks_heap 0%nat (Obj weeks_pmf "weeks") "copy").
Defined.

(** ** Properties of [ConditionOnWeeks] *)

(** C5.  [ConditionOnWeeks(pmf, week, name)] is [ConditionPmf] with the
    filter function [x < week], where [week] is 39 and [name] is
    ['conditional'] when they are not given: it returns a new object
    holding [pmf] restricted to the values [>= week] and renormalised, and
    raises when no mass is left there. *)
Theorem ConditionOnWeeks_is_ConditionPmf (h : heap) (pmf : ref) (o : obj)
    (week : option Z) (name : option string) :
  h !! pmf = Some o →
  let w := default 39%Z week in
  let n := default "conditional"%string name in
  ConditionOnWeeks pmf week name h = ConditionPmf pmf (λ x, (x <? w)%Z) (Some n) h ∧
  ConditionOnWeeks pmf week name h =
    if decide (Total (restrict (λ x, (w <=? x)%Z) (d o)) = 0)
    then Raise EmptyDistributionError
           (h ++ [Obj (restrict (λ x, (w <=? x)%Z) (d o)) n])
    else Ret (length h) (h ++ [Obj (conditioned (λ x, (w <=? x)%Z) (d o)) n]).
Proof.
  intros Hpmf w n.
  assert (Hbind : ConditionOnWeeks pmf week name h
                  = ConditionPmf pmf (λ x, (x <? w)%Z) (Some n) h).
  { unfold ConditionOnWeeks. fold w n. run. by destruct (ConditionPmf _ _ _ h). }
  split; [done|]. rewrite Hbind.
  rewrite (ConditionPmf_run h pmf o _ (Some n) Hpmf). cbn [default].
  unfold conditioned.
  rewrite (restrict_ext (λ v, negb (v <? w)%Z) (λ x, (w <=? x)%Z)); [done|].
  intros v. by rewrite Z.leb_antisym.
Qed.

Lemma ConditionOnWeeks_is_ConditionPmf_witness :
  ConditionOnWeeks 0%nat None None weeks_heap =
    ConditionPmf 0%nat (λ x, (x <? 39)%Z) (Some "conditional"%string) weeks_heap ∧
  ConditionOnWeeks 0%nat None None weeks_heap =
    if decide (Total (restrict (λ x, (39 <=? x)%Z) weeks_pmf) = 0)
    then Raise EmptyDistributionError
           (weeks_heap ++ [Obj (restrict (λ x, (39 <=? x)%Z) weeks_pmf) "conditional"])
    else Ret 1%nat
           (weeks_heap ++ [Obj (conditioned (λ x, (39 <=? x)%Z) weeks_pmf) "conditional"]).
Proof.
  by apply (ConditionOnWeeks_is_ConditionPmf weeks_heap 0%nat (Obj weeks_pmf "weeks") None None).
Defined.

(** C6.  On [{35:0.1, 36:0.1, 37:0.2, 38:0.3, 39:0.3}], whose masses sum
    to 1, [ConditionOnWeeks(pmf, week=38)] removes 35, 36 and 37, of total
    mass 0.4, which leaves [{38:0.3, 39:0.3}], and returns
    [{38:0.5, 39:0.5}]; [Prob(38)] of the result is 0.5. *)
Theorem ConditionOnWeeks_example :
  Total weeks_pmf = 1 ∧
  list_to_set (List.filter (λ x, (x <? 38)%Z) (values weeks_pmf))
    = ({[ 35%Z; 36%Z; 37%Z ]} : gset Z) ∧
  sum (prob weeks_pmf <$> [35%Z; 36%Z; 37%Z]) = frac 4 10 ∧
  remove_all (List.filter (λ x, (x <? 38)%Z) (values weeks_pmf)) weeks_pmf = tail_pmf ∧
  ConditionOnWeeks 0%nat (Some 38%Z) None weeks_heap =
    Ret 1%nat (weeks_heap ++ [Obj even_pmf "conditional"]) ∧
  (cond ← ConditionOnWeeks 0%nat (Some 38%Z) None; Prob cond 38%Z) weeks_heap =
    Ret (frac 1 2) (weeks_heap ++ [Obj even_pmf "conditional"]).
Proof.
  split; [by_evaluation|]. split; [by_evaluation|]. split; [by_evaluation|].
  split; [by_evaluation|]. split; by_evaluation.
Qed.

Lemma ConditionOnWeeks_run (h : heap) (pmf : ref) (o : obj)
    (week : option Z) (name : option string) :
  h !! pmf = Some o →
  ConditionOnWeeks pmf week name h =
    if decide (Total (restrict (λ x, (default 39%Z week <=? x)%Z) (d o)) = 0)
    then Raise EmptyDistributionError
           (h ++ [Obj (restrict (λ x, (default 39%Z week <=? x)%Z) (d o))
                    (default "conditional"%string name)])
    else Ret (length h)
           (h ++ [Obj (conditioned (λ x, (default 39%Z week <=? x)%Z) (d o))
                    (default "conditional"%string name)]).
Proof.
  intros Hpmf. unfold ConditionOnWeeks. step.
  rewrite (ConditionPmf_run h pmf o _ _ Hpmf). cbn [default].
  unfold conditioned.
  rewrite (restrict_ext (λ v, negb (v <? default 39%Z week)%Z)
             (λ x, (default 39%Z week <=? x)%Z))
    by (intros v; by rewrite Z.leb_antisym).
  by case_decide.
Qed.

(** ** Properties of [RelativeRisk] *)

(** C2, for what [RelativeRisk] returns.  [RelativeRisk(first, others,
    week)], with [week] 38 when it is not given, conditions [first.pmf] and
    [others.pmf] on [week] under the names ['first babies'] and ['others']
    and hands the two new distributions to [risk.ComputeRelativeRisk].  It
    raises when one of the two conditionings raises, which is when the
    distribution has no mass at the values from [week] on, and when
    [risk.ComputeRelativeRisk] raises; otherwise it returns [None].  So
    whenever it returns, on any input, its result is [None], not the
    ratio. *)
Theorem RelativeRisk_returns_None (ComputeRelativeRisk : ref → ref → M heap value)
    (h : heap) (first others : table) (o1 o2 : obj) (week : option Z) :
  h !! pmf first = Some o1 →
  h !! pmf others = Some o2 →
  let w := default 38%Z week in
  let keep := λ x, (w <=? x)%Z in
  let first_cond := Obj (conditioned keep (d o1)) "first babies" in
  let other_cond := Obj (conditioned keep (d o2)) "others" in
  ConditionOnWeeks (pmf first) (Some w) (Some "first babies"%string) h
    = (if decide (Total (restrict keep (d o1)) = 0)
       then Raise EmptyDistributionError
              (h ++ [Obj (restrict keep (d o1)) "first babies"])
       else Ret (length h) (h ++ [first_cond])) ∧
  ConditionOnWeeks (pmf others) (Some w) (Some "others"%string) (h ++ [first_cond])
    = (if decide (Total (restrict keep (d o2)) = 0)
       then Raise EmptyDistributionError
              (h ++ [first_cond; Obj (restrict keep (d o2)) "others"])
       else Ret (S (length h)) (h ++ [first_cond; other_cond])) ∧
  RelativeRisk ComputeRelativeRisk first others week h
    = (if decide (Total (restrict keep (d o1)) = 0)
       then Raise EmptyDistributionError
              (h ++ [Obj (restrict keep (d o1)) "first babies"])
       else if decide (Total (restrict keep (d o2)) = 0)
       then Raise EmptyDistributionError
              (h ++ [first_cond; Obj (restrict keep (d o2)) "others"])
       else match ComputeRelativeRisk (length h) (S (length h))
                    (h ++ [first_cond; other_cond]) with
            | Ret _ h' => Ret None_ h'
            | Raise e h' => Raise e h'
            end) ∧
  ∀ result h',
    RelativeRisk ComputeRelativeRisk first others week h = Ret result h' →
    result = None_.
Proof.
  intros H1 H2 w keep first_cond other_cond.
  assert (E1 := ConditionOnWeeks_run h (pmf first) o1 (Some w)
                  (Some "first babies"%string) H1).
  assert (E2 := ConditionOnWeeks_run (h ++ [first_cond]) (pmf others) o2 (Some w)
                  (Some "others"%string) (lookup_app_l_Some _ _ _ _ H2)).
  change (default 39%Z (Some w)) with w in E1, E2.
  change (default "conditional"%string (Some "first babies"%string))
    with "first babies"%string in E1.
  change (default "conditional"%string (Some "others"%string))
    with "others"%string in E2.
  rewrite length_app, Nat.add_1_r, <- !app_assoc in E2. cbn [app] in E2.
  fold keep in E1, E2. fold first_cond in E1. fold other_cond in E2.
  assert (E3 : RelativeRisk ComputeRelativeRisk first others week h
    = (if decide (Total (restrict keep (d o1)) = 0)
       then Raise EmptyDistributionError
              (h ++ [Obj (restrict keep (d o1)) "first babies"])
       else if decide (Total (restrict keep (d o2)) = 0)
       then Raise EmptyDistributionError
              (h ++ [first_cond; Obj (restrict keep (d o2)) "others"])
       else match ComputeRelativeRisk (length h) (S (length h))
                    (h ++ [first_cond; other_cond]) with
            | Ret _ h' => Ret None_ h'
            | Raise e h' => Raise e h'
            end)).
  { unfold RelativeRisk. step. fold w. rewrite E1.
    destruct (decide (Total (restrict keep (d o1)) = 0)); [done|].
    rewrite E2.
    destruct (decide (Total (restrict keep (d o2)) = 0)); [done|].
    by destruct (ComputeRelativeRisk _ _ _). }
  split; [done|]. split; [done|]. split; [done|].
  intros result h'. unfold RelativeRisk. step.
  destruct (ConditionOnWeeks (pmf first) _ _ h) as [c1 h1|]; [|done].
  destruct (ConditionOnWeeks (pmf others) _ _ h1) as [c2 h2|]; [|done].
  destruct (ComputeRelativeRisk c1 c2 h2); [|done].
  by intros [= <- _].
Qed.

Lemma RelativeRisk_returns_None_witness :
  RelativeRisk (relative_risk_ratio 38%Z) (Table 0%nat) (Table 1%nat) None risk_heap
  = Ret None_ risk_heap_conditioned.
Proof.
  pose proof (RelativeRisk_returns_None (relative_risk_ratio 38%Z) risk_heap
                (Table 0%nat) (Table 1%nat) (Obj first_pmf "first")
                (Obj even_pmf "others") None eq_refl eq_refl) as H.
  destruct H as (_ & _ & -> & _). by_evaluation.
Defined.

(** C2 with the ratio as the result does not hold: on
    [first = {38:0.4, 39:0.6}] and [others = {38:0.5, 39:0.5}] with week 38
    the ratio of the two conditional probabilities is 0.8, and
    [RelativeRisk] returns [None], also when [risk.ComputeRelativeRisk]
    computes that ratio. *)
Lemma RelativeRisk_does_not_return_ratio :
  relative_risk_ratio 38%Z 2%nat 3%nat risk_heap_conditioned
    = Ret (Num (frac 4 5)) risk_heap_conditioned ∧
  RelativeRisk (relative_risk_ratio 38%Z) (Table 0%nat) (Table 1%nat) (Some 38%Z) risk_heap
    = Ret None_ risk_heap_conditioned ∧
  None_ ≠ Num (frac 4 5).
Proof. split; [by_evaluation|]. split; [by_evaluation|done]. Qed.

(** ** Properties of [myplot.Hist] *)

Lemma comprehension_pure {S A B} (xs : list A) (f : A → M S B) (g : A → B) (s : S) :
  (∀ x, x ∈ xs → f x s = Ret (g x) s) →
  comprehension xs f s = Ret (g <$> xs) s.
Proof.
  induction xs as [|x xs IH]; intros Hf; [done|].
  cbn [comprehension]. run. rewrite Hf by left.
  by rewrite IH by (intros; apply Hf; by right).
Qed.

(** [Diff] never runs out of range: it returns the [len(t) - 1] differences
    of adjacent elements. *)
Lemma Diff_run {S} (t : list Qc) (s : S) :
  myplot.Diff t s =
    Ret ((λ i, default 0 (t !! (i + 1)%nat) - default 0 (t !! i))
           <$> seq 0 (length t - 1)) s.
Proof.
  unfold myplot.Diff. apply comprehension_pure. intros i Hi.
  apply elem_of_seq in Hi.
  destruct (lookup_lt_is_Some_2 t (i + 1)) as [a Ha]; [lia|].
  destruct (lookup_lt_is_Some_2 t i) as [b Hb]; [lia|].
  unfold myplot.item. run. by rewrite Ha, Hb.
Qed.

Lemma load_global_pyplot {S} (s : S) :
  myplot.load_global "pyplot" s = Ret myplot.module_ s.
Proof. unfold myplot.load_global. by vm_compute (_ !! _). Qed.

Lemma load_global_bar_options {S} (s : S) :
  myplot.load_global "bar_options" s = Raise (NameError "bar_options") s.
Proof. unfold myplot.load_global. by vm_compute (_ !! _). Qed.

(** C10.  Whenever [hist.Render()] returns and gives at least two x
    values, [Hist] raises [NameError] for the name [bar_options]; the
    figure is left as [Render] left it, no bar has been drawn. *)
Theorem Hist_raises_NameError (hist : myplot.renderable)
    (options : gmap string value) (fig fig' : myplot.figure) (xs fs : list Qc) :
  myplot.Render hist fig = Ret (xs, fs) fig' →
  (2 ≤ length xs)%nat →
  myplot.Hist hist options fig = Raise (NameError "bar_options") fig'.
Proof.
  intros HRender Hlen. unfold myplot.Hist.
  unfold mbind, M_bind, bind. rewrite HRender. cbv beta iota.
  rewrite Diff_run.
  destruct (length xs - 1)%nat as [|n] eqn:En; [lia|].
  cbn [seq fmap list_fmap min]. unfold ret. cbv beta iota zeta.
  by rewrite load_global_pyplot, load_global_bar_options.
Qed.

Lemma Hist_raises_NameError_witness :
  myplot.Hist two_bars ∅ [] = Raise (NameError "bar_options") [].
Proof.
  apply (Hist_raises_NameError two_bars ∅ [] [] [1; 1 + 1] [frac 1 2; frac 1 2]);
    [reflexivity | simpl; lia].
Defined.

(** ** The model at work on small inputs *)

Example Remove_absent_value : Remove 0%nat 40%Z weeks_heap = Ret tt weeks_heap.
Proof. by_evaluation. Qed.

Example Normalize_unnormalized :
  Normalize 0%nat unnormalized_heap
  = Ret tt [Obj (list_to_map [(1%Z, frac 1 3); (2%Z, frac 2 3)]) "pmf"].
Proof. by_evaluation. Qed.

Example ConditionOnWeeks_default_week :
  ConditionOnWeeks 0%nat None (Some "late"%string) weeks_heap
  = Ret 1%nat (weeks_heap ++ [Obj {[ 39%Z := 1 ]} "late"]).
Proof. by_evaluation. Qed.

Example ConditionOnWeeks_past_the_end :
  ConditionOnWeeks 0%nat (Some 40%Z) None weeks_heap
  = Raise EmptyDistributionError (weeks_heap ++ [Obj ∅ "conditional"]).
Proof. by_evaluation. Qed.

Example Diff_three : myplot.Diff [1; frac 3 1; frac 6 1] tt = Ret [frac 2 1; frac 3 1] tt.
Proof. by_evaluation. Qed.

Example Underride_keeps_given_options :
  myplot.Underride (Some {[ "width"%string := Num 1 ]})
    (list_to_map [("width", Num (frac 2 1)); ("align", Str "center")]%string)
  = list_to_map [("width", Num 1); ("align", Str "center")]%string.
Proof. by_evaluation. Qed.

(** With a single x value there is no difference to take the minimum of:
    [min] raises before the call of [pyplot.bar] is reached. *)
Example Hist_one_bar : myplot.Hist one_bar ∅ [] = Raise ValueError [].
Proof. by_evaluation. Qed.

(** * More of the code *)

(** ** [Underride] *)

Lemma setdefault_union (key : string) (val : value) (d : gmap string value) :
  myplot.setdefault key val d = d ∪ {[ key := val ]}.
Proof.
  unfold myplot.setdefault. apply map_eq. intros k. rewrite lookup_union.
  destruct (decide (k = key)) as [->|Hne].
  - rewrite lookup_singleton_eq. destruct (d !! key) eqn:E; rewrite ?E; simpl.
    + done.
    + by rewrite lookup_insert_eq.
  - rewrite lookup_singleton_ne by done.
    destruct (d !! key) eqn:E.
    + by destruct (d !! k).
    + rewrite lookup_insert_ne by done. by destruct (d !! k).
Qed.

Lemma foldl_setdefault (l : list (string * value)) (d : gmap string value) :
  foldl (λ d kv, myplot.setdefault kv.1 kv.2 d) d l = d ∪ list_to_map l.
Proof.
  revert d. induction l as [|[k v] l IH]; intros d; simpl.
  - by rewrite (right_id ∅ (∪)).
  - rewrite IH, setdefault_union, <- (assoc_L (∪)).
    by rewrite <- insert_union_singleton_l.
Qed.

Lemma Underride_union (d : option (gmap string value)) (options : gmap string value) :
  myplot.Underride d options = default ∅ d ∪ options.
Proof.
  unfold myplot.Underride. by rewrite foldl_setdefault, list_to_map_to_list.
Qed.

(** X1.  [Underride] never changes the value of a key that [d] already
    has, and gives every other key the value it has in [options], if any:
    the result is [d] with the missing keys filled in, nothing else. *)
Theorem Underride_lookup (d : option (gmap string value))
    (options : gmap string value) (key : string) :
  myplot.Underride d options !! key =
    match default ∅ d !! key with
    | Some val => Some val
    | None => options !! key
    end.
Proof.
  rewrite Underride_union, lookup_union.
  by destruct (default ∅ d !! key), (options !! key).
Qed.

(** X2.  Two calls of [Underride] in a row, as [Pmf] followed by [Plot]
    make them, are one call with the defaults of the first taking
    precedence over those of the second. *)
Theorem Underride_twice (d : option (gmap string value))
    (options1 options2 : gmap string value) :
  myplot.Underride (Some (myplot.Underride d options1)) options2
  = myplot.Underride d (options1 ∪ options2).
Proof. rewrite !Underride_union. simpl. by rewrite (assoc_L (∪)). Qed.

(** ** [Diff] and [Shift] *)

Lemma Diff_differences {S} (t : list Qc) (s : S) :
  myplot.Diff t s =
    Ret (match t with [] => [] | first :: rest => differences first rest end) s.
Proof.
  rewrite Diff_run. f_equal.
  destruct t as [|a t]; [done|].
  replace (length (a :: t) - 1)%nat with (length t) by (simpl; lia).
  revert a. induction t as [|b t IH]; intros a; [done|].
  cbn [length seq fmap list_fmap differences]. f_equal.
  rewrite <- IH, <- fmap_S_seq, <- list_fmap_compose.
  apply list_fmap_ext. intros _ i _. simpl. done.
Qed.

Lemma length_differences (first : Qc) (rest : list Qc) :
  length (differences first rest) = length rest.
Proof.
  revert first. induction rest as [|b rest IH]; intros a; simpl; [done|].
  by rewrite IH.
Qed.

Lemma lookup_differences (first : Qc) (rest : list Qc) (i : nat) (a b : Qc) :
  (first :: rest) !! i = Some a →
  (first :: rest) !! S i = Some b →
  differences first rest !! i = Some (b - a).
Proof.
  revert first i. induction rest as [|c rest IH]; intros first i Ha Hb; [done|].
  destruct i as [|i]; simpl in *.
  - congruence.
  - by apply IH.
Qed.

(** X3.  [Diff] never raises, on the empty sequence either: it returns
    [len(t) - 1] differences (none for an empty or one-element sequence),
    the i-th being [t[i+1] - t[i]]. *)
Theorem Diff_returns_adjacent_differences {St} (t : list Qc) (s : St) :
  ∃ diffs,
    myplot.Diff t s = Ret diffs s ∧
    length diffs = (length t - 1)%nat ∧
    ∀ i a b, t !! i = Some a → t !! S i = Some b → diffs !! i = Some (b - a).
Proof.
  eexists. split; [apply Diff_differences|].
  destruct t as [|first rest]; simpl.
  - split; [done|]. by intros i a b.
  - rewrite length_differences, Nat.sub_0_r. split; [done|].
    intros i a b. apply lookup_differences.
Qed.

Lemma last_cons_default (x a b : Qc) (l : list Qc) :
  List.last (x :: l) a = List.last (x :: l) b.
Proof.
  revert x. induction l as [|y l IH]; intros x; [done|].
  change (List.last (y :: l) a = List.last (y :: l) b). apply IH.
Qed.

Lemma sum_differences (first : Qc) (rest : list Qc) :
  sum (differences first rest) = List.last rest first - first.
Proof.
  rewrite sum_foldr. revert first.
  induction rest as [|b rest IH]; intros a.
  - simpl. ring.
  - cbn [differences foldr]. rewrite IH.
    destruct rest as [|c rest]; [simpl; ring|].
    change (List.last (b :: c :: rest) a) with (List.last (c :: rest) a).
    rewrite (last_cons_default c a b rest). ring.
Qed.

(** X4.  The differences that [Diff] returns add up to the last element
    minus the first. *)
Theorem Diff_telescopes {St} (first : Qc) (rest : list Qc) (s : St) :
  ∃ diffs,
    myplot.Diff (first :: rest) s = Ret diffs s ∧
    sum diffs = List.last rest first - first.
Proof.
  eexists. split; [apply Diff_differences|]. apply sum_differences.
Qed.

Lemma differences_Shift (first shift : Qc) (rest : list Qc) :
  differences (first + shift) (myplot_lib.Shift rest shift) = differences first rest.
Proof.
  revert first. induction rest as [|b rest IH]; intros a; [done|].
  unfold myplot_lib.Shift in *. cbn [fmap list_fmap differences].
  rewrite IH. f_equal. ring.
Qed.

(** X5.  Shifting a sequence does not change its adjacent differences: the
    bar width that [Hist] derives from [Diff] is the same for the shifted x
    values of [Hists]. *)
Theorem Diff_Shift {St} (xs : list Qc) (shift : Qc) (s : St) :
  myplot.Diff (myplot_lib.Shift xs shift) s = myplot.Diff xs s.
Proof.
  rewrite !Diff_differences. destruct xs as [|a xs]; [done|].
  f_equal. exact (differences_Shift a shift xs).
Qed.

(** X6.  [Shift] keeps the length of the sequence, a shift by 0 changes
    nothing, and two shifts in a row are one shift by the sum. *)
Theorem Shift_composes (xs : list Qc) (shift1 shift2 : Qc) :
  length (myplot_lib.Shift xs shift1) = length xs ∧
  myplot_lib.Shift xs 0 = xs ∧
  myplot_lib.Shift (myplot_lib.Shift xs shift1) shift2
    = myplot_lib.Shift xs (shift1 + shift2).
Proof.
  unfold myplot_lib.Shift. split; [apply length_fmap|]. split.
  - rewrite <- (list_fmap_id xs) at 2. apply list_fmap_ext.
    intros _ x _. simpl. ring.
  - rewrite <- list_fmap_compose. apply list_fmap_ext.
    intros _ x _. simpl. ring.
Qed.

(** ** [Hist], on every input *)

(** X7.  [Hist] never returns and never draws: whatever [Render] gives, it
    raises, and the figure is left as [Render] left it.  The exception is
    the one of [Render] if that raises, [ValueError] from [min] when there
    are fewer than two x values, and [NameError] otherwise. *)
Theorem Hist_never_draws (hist : myplot.renderable)
    (options : gmap string value) (fig : myplot.figure) :
  final_state (myplot.Hist hist options fig)
    = final_state (myplot.Render hist fig) ∧
  raised (myplot.Hist hist options fig) =
    match myplot.Render hist fig with
    | Raise e _ => Some e
    | Ret (xs, _) _ =>
        if decide (length xs < 2)%nat then Some ValueError
        else Some (NameError "bar_options")
    end.
Proof.
  unfold myplot.Hist. unfold mbind, M_bind, bind.
  destruct (myplot.Render hist fig) as [[xs fs] fig'|e fig']; [|done].
  cbv beta iota. rewrite Diff_differences.
  destruct xs as [|a [|b xs]]; [done|done|].
  cbn [differences min]. unfold ret. cbv beta iota zeta.
  rewrite load_global_pyplot, load_global_bar_options.
  rewrite decide_False by (simpl; lia). done.
Qed.

(** ** More on conditioning *)

(** X8.  [ConditionPmf] allocates exactly one object, the copy, and
    changes nothing else in the store, also when it raises: no existing
    distribution is modified, and the values of the copy are values of
    [pmf]. *)
Theorem ConditionPmf_only_allocates (h : heap) (pmf : ref) (o : obj)
    (filter_func : Z → bool) (name : option string) :
  h !! pmf = Some o →
  ∃ copy : obj,
    final_state (ConditionPmf pmf filter_func name h) = h ++ [copy] ∧
    Pmf.name copy = default "conditional"%string name ∧
    ∀ v, v ∈ values (d copy) → v ∈ values (d o) ∧ filter_func v = false.
Proof.
  intros Hpmf. rewrite (ConditionPmf_run h pmf o filter_func name Hpmf).
  case_decide; eexists; (split; [done|]); (split; [done|]); intros v; cbn [d].
  - rewrite !elem_of_values, lookup_restrict.
    destruct (filter_func v); simpl; [by intros [? ?]|done].
  - rewrite values_conditioned, negb_true_iff. done.
Qed.

Lemma ConditionPmf_only_allocates_witness :
  ∃ copy : obj,
    final_state (ConditionPmf 0%nat (λ v, (v <? 40)%Z) None weeks_heap)
      = weeks_heap ++ [copy] ∧
    Pmf.name copy = "conditional"%string ∧
    ∀ v, v ∈ values (d copy) → v ∈ values weeks_pmf ∧ (v <? 40)%Z = false.
Proof.
  by apply (ConditionPmf_only_allocates weeks_heap 0%nat (Obj weeks_pmf "weeks")
              (λ v, (v <? 40)%Z) None).
Defined.





(** X10.  When [first.pmf] or [others.pmf] has no mass at or after [week],
    [RelativeRisk] raises [EmptyDistributionError] and
    [risk.ComputeRelativeRisk] is not called: the outcome is the same for
    every such function. *)
Theorem RelativeRisk_raises_on_empty_tail
    (ComputeRelativeRisk ComputeRelativeRisk' : ref → ref → M heap value)
    (h : heap) (first others : table) (o1 o2 : obj) (week : option Z) :
  h !! pmf first = Some o1 →
  h !! pmf others = Some o2 →
  Total (restrict (λ x, (default 38%Z week <=? x)%Z) (d o1)) = 0 ∨
  Total (restrict (λ x, (default 38%Z week <=? x)%Z) (d o2)) = 0 →
  raised (RelativeRisk ComputeRelativeRisk first others week h)
    = Some EmptyDistributionError ∧
  RelativeRisk ComputeRelativeRisk first others week h
    = RelativeRisk ComputeRelativeRisk' first others week h.
Proof.
  intros H1 H2 Hz. unfold RelativeRisk. step.
  rewrite (ConditionOnWeeks_run h (pmf first) o1 _ _ H1). cbn [default from_option id].
  destruct (decide (Total (restrict (λ x, (default 38%Z week <=? x)%Z) (d o1)) = 0))
    as [|Hne1]; [done|].
  destruct Hz as [|Hz]; [done|].
  erewrite ConditionOnWeeks_run by (by apply lookup_app_l_Some).
  cbn [default from_option id]. by rewrite decide_True.
Qed.

Lemma RelativeRisk_raises_on_empty_tail_witness :
  raised (RelativeRisk (relative_risk_ratio 40%Z) (Table 0%nat) (Table 1%nat)
            (Some 40%Z) risk_heap)
    = Some EmptyDistributionError ∧
  RelativeRisk (relative_risk_ratio 40%Z) (Table 0%nat) (Table 1%nat) (Some 40%Z) risk_heap
    = RelativeRisk (λ _ _, ret None_) (Table 0%nat) (Table 1%nat) (Some 40%Z) risk_heap.
Proof.
  apply (RelativeRisk_raises_on_empty_tail (relative_risk_ratio 40%Z) (λ _ _, ret None_)
           risk_heap (Table 0%nat) (Table 1%nat) (Obj first_pmf "first")
           (Obj even_pmf "others") (Some 40%Z)); [reflexivity | reflexivity |].
  left. apply Qc_this_eq. vm_compute. reflexivity.
Defined.

(** ** [Hists] *)

Lemma keywords_run {St} (explicit : list (string * value))
    (star : gmap string value) (s : St) :
  (∀ kv, kv ∈ explicit → star !! kv.1 = None) →
  myplot_lib.keywords explicit star s = Ret (list_to_map explicit ∪ star) s.
Proof.
  intros Hfree. unfold myplot_lib.keywords.
  rewrite bool_decide_eq_false_2; [done|].
  intros (kv & Hin%list_elem_of_In & [v Hv])%Exists_exists.
  rewrite (Hfree kv Hin) in Hv. done.
Qed.

Lemma keywords_clash {St} (explicit : list (string * value))
    (star : gmap string value) (s : St) (key : string) :
  key ∈ explicit.*1 → is_Some (star !! key) →
  myplot_lib.keywords explicit star s = Raise TypeError s.
Proof.
  intros Hin Hkey. unfold myplot_lib.keywords.
  rewrite bool_decide_eq_true_2; [done|].
  apply list_elem_of_fmap in Hin as (kv & -> & Hin).
  apply Exists_exists. exists kv. split; [by apply list_elem_of_In|done].
Qed.

(** X11.  For histograms whose [Render] returns, and options without
    [label] and [width]: [Hists] draws the first histogram moved 0.4 to
    the left and the second one in place, each 0.4 wide and labelled with
    its name; it returns for at most two histograms, and for more it
    raises [IndexError] after having drawn the first two. *)
Theorem Hists_at_most_two (hists : list myplot_lib.series)
    (data : myplot_lib.series → list Qc * list Qc)
    (options : gmap string value) (t : myplot_lib.trace) :
  (∀ hist t', hist ∈ hists → myplot_lib.Render hist t' = Ret (data hist) t') →
  options !! "label"%string = None →
  options !! "width"%string = None →
  myplot_lib.Hists hists options t =
    let bars :=
      imap (λ i hist, Hists_bar options i hist (data hist).1 (data hist).2)
        (take 2 hists) in
    if decide (length hists ≤ 2)%nat then Ret tt (t ++ bars)
    else Raise IndexError (t ++ bars).
Proof.
  intros HRender Hlabel Hwidth. unfold myplot_lib.Hists. cbv zeta.
  set (body := λ '(i, hist), _).
  assert (Hbody : ∀ i hist t', hist ∈ hists →
            body (i, hist) t' =
              match i with
              | 0%nat | 1%nat =>
                  Ret tt (t' ++ [Hists_bar options i hist (data hist).1 (data hist).2])
              | _ => Raise IndexError t'
              end).
  { intros i hist t' Hin. unfold body. step. rewrite (HRender hist t' Hin).
    destruct (data hist) as [xs fs]. cbv beta iota.
    destruct i as [|[|i]]; cbn [myplot.item lookup list_lookup]; step; [| |done].
    - rewrite keywords_run; [done|].
      intros kv [->|[->|[]%elem_of_nil]%elem_of_cons]%elem_of_cons; done.
    - rewrite keywords_run; [done|].
      intros kv [->|[->|[]%elem_of_nil]%elem_of_cons]%elem_of_cons; done. }
  clearbody body.
  destruct hists as [|h1 [|h2 [|h3 rest]]];
    cbn [imap for_each take length]; unfold compose; step.
  - rewrite decide_True by lia. by rewrite app_nil_r.
  - rewrite Hbody by set_solver. by rewrite decide_True by lia.
  - rewrite Hbody by set_solver. rewrite Hbody by set_solver.
    rewrite decide_True by lia. by rewrite <- app_assoc.
  - rewrite Hbody by set_solver. rewrite Hbody by set_solver.
    rewrite Hbody by set_solver. rewrite decide_False by lia.
    by rewrite <- app_assoc.
Qed.

Lemma Hists_at_most_two_witness :
  myplot_lib.Hists [boys; girls] ∅ []
  = Ret tt [Hists_bar ∅ 0 boys [1; 1 + 1] [frac 1 2; frac 1 2];
            Hists_bar ∅ 1 girls [1; 1 + 1] [frac 1 4; frac 3 4]].
Proof.
  apply (Hists_at_most_two [boys; girls]
           (λ hist, match myplot_lib.Render hist [] with
                    | Ret series _ => series
                    | Raise _ _ => ([], [])
                    end) ∅ []); [|done|done].
  intros hist t' [->|[->|[]%elem_of_nil]%elem_of_cons]%elem_of_cons; reflexivity.
Defined.

(** X12.  When the options of [Hists] contain [label] or [width], the call
    of [pyplot.bar] for the first histogram gets that keyword twice:
    [Hists] raises [TypeError] and draws nothing. *)
Theorem Hists_rejects_label_and_width (hist : myplot_lib.series)
    (hists : list myplot_lib.series) (xs fs : list Qc)
    (options : gmap string value) (t : myplot_lib.trace) :
  myplot_lib.Render hist t = Ret (xs, fs) t →
  is_Some (options !! "label"%string) ∨ is_Some (options !! "width"%string) →
  myplot_lib.Hists (hist :: hists) options t = Raise TypeError t.
Proof.
  intros HRender Hkey. unfold myplot_lib.Hists. cbv zeta.
  cbn [imap for_each]. step. rewrite HRender. cbv beta iota.
  cbn [myplot.item lookup list_lookup]. step.
  destruct Hkey as [Hkey|Hkey].
  - rewrite (keywords_clash _ _ _ "label"%string); [done| |done]. set_solver.
  - rewrite (keywords_clash _ _ _ "width"%string); [done| |done]. set_solver.
Qed.

Lemma Hists_rejects_label_and_width_witness :
  myplot_lib.Hists [boys; girls] {[ "width"%string := Num 1 ]} [] = Raise TypeError [].
Proof.
  apply (Hists_rejects_label_and_width boys [girls] [1; 1 + 1] [frac 1 2; frac 1 2]);
    [reflexivity|].
  right. by eexists.
Defined.

(** ** [Plot], [Pmf] and [Pmfs] *)








(** ** [Save] and [Config] *)

Lemma for_each_SaveFormat (root : string) (formats : list string)
    (t : myplot_lib.trace) :
  for_each formats (λ format, myplot_lib.SaveFormat root (Some format)) t
  = Ret tt (t ++ concat (saved root <$> formats)).
Proof.
  revert t. induction formats as [|format formats IH]; intros t.
  - cbn. unfold ret. by rewrite app_nil_r.
  - cbn [for_each fmap list_fmap concat]. step.
    unfold myplot_lib.SaveFormat at 1. cbv zeta. step.
    unfold myplot_lib.emit. rewrite IH. cbn [default].
    unfold saved. by rewrite <- !app_assoc.
Qed.

(** X15.  Without a root, that is with [root] [None] or the empty string,
    [Save] only configures the plot: it prints nothing and saves no file,
    whatever the formats. *)
Theorem Save_without_root (root : option string) (formats : option (list string))
    (options : gmap string value) (t : myplot_lib.trace) :
  root = None ∨ root = Some ""%string →
  myplot_lib.Save root formats options t = myplot_lib.Config options t.
Proof.
  intros Hroot. unfold myplot_lib.Save. step.
  destruct (myplot_lib.Config options t) as [[] t'|e t']; [|done].
  rewrite bool_decide_eq_false_2; [done|].
  intros [? ?]. by destruct Hroot.
Qed.

Lemma Save_without_root_witness :
  myplot_lib.Save (Some ""%string) (Some ["pdf"%string]) ∅ [] = myplot_lib.Config ∅ [].
Proof. apply Save_without_root. by right. Defined.

(** X16.  With a root that is not empty, [Save] configures the plot and
    then, for every format in the order given ([pdf] and [png] when no
    formats are given) prints a line and saves the file [root.format] in
    that format at 300 dpi; when configuring raises, nothing is saved. *)
Theorem Save_writes_each_format (root : string) (formats : option (list string))
    (options : gmap string value) (t : myplot_lib.trace) :
  root ≠ ""%string →
  myplot_lib.Save (Some root) formats options t =
    match myplot_lib.Config options t with
    | Ret _ t' =>
        Ret tt (t' ++ concat (saved root <$> default ["pdf"; "png"]%string formats))
    | Raise e t' => Raise e t'
    end.
Proof.
  intros Hroot. unfold myplot_lib.Save. step.
  destruct (myplot_lib.Config options t) as [[] t'|e t']; [|done].
  rewrite bool_decide_eq_true_2 by (split; congruence).
  cbn [default]. apply for_each_SaveFormat.
Qed.

Lemma Save_writes_each_format_witness :
  myplot_lib.Save (Some "hist"%string) None ∅ [] =
    Ret tt [myplot_lib.title (Str ""); myplot_lib.xlabel (Str "");
            myplot_lib.ylabel (Str ""); myplot_lib.legend (Num 0);
            myplot_lib.print [Str "Writing"; Str "hist.pdf"];
            myplot_lib.savefig "hist.pdf" "pdf" 300;
            myplot_lib.print [Str "Writing"; Str "hist.png"];
            myplot_lib.savefig "hist.png" "png" 300].
Proof.
  rewrite (Save_writes_each_format "hist" None ∅ []) by done.
  vm_compute. reflexivity.
Defined.

(** X17.  [Config] first sets the title and the two axis labels, to the
    empty string when the option is not given, and it has done so also
    when a later option makes it raise.  A legend is asked for only when
    [Config] returns and the option [legend] is not given or true, and
    then it is the last call, at the place [loc] (0 when not given). *)
Theorem Config_labels_and_legend (options : gmap string value)
    (t : myplot_lib.trace) :
  ∃ rest,
    final_state (myplot_lib.Config options t)
      = t ++ [myplot_lib.title (default (Str "") (options !! "title"%string));
              myplot_lib.xlabel (default (Str "") (options !! "xlabel"%string));
              myplot_lib.ylabel (default (Str "") (options !! "ylabel"%string))]
          ++ rest ∧
    (∀ loc, myplot_lib.legend loc ∈ rest →
       raised (myplot_lib.Config options t) = None ∧
       myplot_lib.truthy (default (Num 1) (options !! "legend"%string)) = true ∧
       loc = default (Num 0) (options !! "loc"%string)) ∧
    (raised (myplot_lib.Config options t) = None →
     myplot_lib.truthy (default (Num 1) (options !! "legend"%string)) = true →
     list.last rest
       = Some (myplot_lib.legend (default (Num 0) (options !! "loc"%string)))).
Proof.
  unfold myplot_lib.Config. cbv zeta.
  generalize (default (Str "") (options !! "title"%string)),
    (default (Str "") (options !! "xlabel"%string)),
    (default (Str "") (options !! "ylabel"%string)),
    (default (Num 0) (options !! "loc"%string)),
    (myplot_lib.truthy (default (Num 1) (options !! "legend"%string))).
  intros v1 v2 v3 loc leg. step. unfold myplot_lib.emit, myplot_lib.unpack.
  destruct (options !! "xscale"%string) as [xs|];
  destruct (options !! "xticks"%string) as [[| |]|];
  destruct (options !! "yscale"%string) as [ys|];
  destruct (options !! "yticks"%string) as [[| |]|];
  destruct (options !! "axis"%string) as [ax|];
  destruct leg; step; cbn [final_state raised];
  rewrite <- ?app_assoc; cbn [app];
  (eexists; split;
   [reflexivity
   |split;
    [ intros loc' Hin;
      repeat (apply elem_of_cons in Hin as [Hin|Hin];
              [first [discriminate Hin | by injection Hin as ->]|]);
      by apply elem_of_nil in Hin
    | first [by intros ? | by intros ? ? | by intros _ _] ]]).
Qed.

(** ** [Cdf] *)

Section Cdf_properties.
Variable log : Qc → Qc.
Variable unknown_property : exn.

Lemma pyplot_plot_run (xs ys : list Qc) (style : option value)
    (kwargs : gmap string value) (t : myplot_lib.trace) :
  myplot_lib.pyplot_plot unknown_property xs ys style kwargs t
  = if bool_decide (is_Some (kwargs !! "xscale"%string) ∨
                    is_Some (kwargs !! "yscale"%string))
    then Raise unknown_property t
    else Ret tt (t ++ [myplot_lib.plot xs ys style kwargs]).
Proof. unfold myplot_lib.pyplot_plot. by case_bool_decide. Qed.

Lemma Cdf_kwargs_lookup_ne (cdf : myplot_lib.series) (options : gmap string value)
    (key : string) :
  key ≠ "label"%string →
  (list_to_map [("label"%string, Str (myplot_lib.name cdf))] ∪ options) !! key
  = options !! key.
Proof.
  intros Hkey.
  change (list_to_map [("label"%string, Str (myplot_lib.name cdf))])
    with ({[ "label"%string := Str (myplot_lib.name cdf) ]} : gmap string value).
  rewrite lookup_union, lookup_singleton_ne by done.
  by destruct (options !! key).
Qed.

(** X18.  Without the transforms [weibull] and [gumbel], for a [Render]
    that returns and options without [label]: the transforms
    [exponential] and [pareto] put [yscale] (and [xscale]) among the
    keywords of [pyplot.plot], which rejects them, so [Cdf] raises and
    draws nothing; it does the same when the caller gives [xscale] or
    [yscale].  Otherwise [Cdf] draws one line through all rendered
    points, labelled with the name of the distribution, with the
    probabilities replaced by their complements [1 - p] when [complement]
    is true. *)
Theorem Cdf_scales_rejected (cdf : myplot_lib.series)
    (complement transform : value) (options : gmap string value)
    (t : myplot_lib.trace) (xs ps : list Qc) :
  myplot_lib.Render cdf t = Ret (xs, ps) t →
  transform ≠ Str "weibull" →
  transform ≠ Str "gumbel" →
  options !! "label"%string = None →
  myplot_lib.Cdf log unknown_property cdf complement transform options t
  = if scaled transform
       || bool_decide (is_Some (options !! "xscale"%string) ∨
                       is_Some (options !! "yscale"%string))
    then Raise unknown_property t
    else Ret tt (t ++ [myplot_lib.plot xs
                         (if myplot_lib.truthy complement
                          then (λ p, 1 - p) <$> ps else ps)
                         None (Cdf_kwargs cdf options)]).
Proof.
  intros HRender Hweibull Hgumbel Hlabel.
  unfold myplot_lib.Cdf, scaled. step. rewrite HRender. cbv beta iota.
  rewrite (bool_decide_eq_false_2 (transform = Str "weibull")) by done.
  rewrite (bool_decide_eq_false_2 (transform = Str "gumbel")) by done.
  destruct (bool_decide (transform = Str "exponential")) eqn:Hexp;
  destruct (bool_decide (transform = Str "pareto")) eqn:Hpar;
    cbv beta iota; step.
  - apply bool_decide_eq_true_1 in Hexp. apply bool_decide_eq_true_1 in Hpar.
    congruence.
  - rewrite keywords_run
      by (intros kv [->|[]%elem_of_nil]%elem_of_cons; by rewrite lookup_insert_ne).
    cbv beta iota. rewrite pyplot_plot_run, bool_decide_eq_true_2; [done|].
    right. by rewrite Cdf_kwargs_lookup_ne, lookup_insert_eq.
  - rewrite keywords_run
      by (intros kv [->|[]%elem_of_nil]%elem_of_cons; by rewrite !lookup_insert_ne).
    cbv beta iota. rewrite pyplot_plot_run, bool_decide_eq_true_2; [done|].
    left. by rewrite Cdf_kwargs_lookup_ne, lookup_insert_eq.
  - rewrite keywords_run
      by (intros kv [->|[]%elem_of_nil]%elem_of_cons; done).
    cbv beta iota. rewrite pyplot_plot_run, !Cdf_kwargs_lookup_ne by done.
    cbn [orb]. done.
Qed.

Lemma comprehension_math_log {St} (ps : list Qc) (arg : Qc → Qc) (s : St) :
  (∀ p, p ∈ ps → 0 < arg p) →
  comprehension ps (λ p, l ← myplot_lib.math_log log (arg p); ret (- l)) s
  = Ret ((λ p, - log (arg p)) <$> ps) s.
Proof.
  intros Hpos. apply comprehension_pure. intros p Hp.
  unfold myplot_lib.math_log. step. by rewrite decide_True by by apply Hpos.
Qed.

(** X19.  The transform [weibull] never gets a line drawn.  Also when
    there is a last rendered point to drop and every other probability is
    below 1, so that all logarithms of [1 - p] exist (and [complement] is
    false, the options without [label]): [Cdf] puts [xscale] and [yscale]
    among the keywords of [pyplot.plot], which rejects them, and [Cdf]
    raises with the trace as it was. *)
Theorem Cdf_weibull_rejected (cdf : myplot_lib.series) (complement : value)
    (options : gmap string value) (t : myplot_lib.trace)
    (xs ps : list Qc) (x p : Qc) :
  myplot_lib.Render cdf t = Ret (xs ++ [x], ps ++ [p]) t →
  myplot_lib.truthy complement = false →
  (∀ p', p' ∈ ps → p' < 1) →
  options !! "label"%string = None →
  myplot_lib.Cdf log unknown_property cdf complement (Str "weibull") options t
  = Raise unknown_property t.
Proof.
  intros HRender Hcomplement Hps Hlabel.
  unfold myplot_lib.Cdf. step. rewrite HRender. cbv beta iota.
  rewrite (bool_decide_eq_false_2 (Str "weibull" = Str "exponential")) by done.
  rewrite (bool_decide_eq_false_2 (Str "weibull" = Str "pareto")) by done.
  rewrite (bool_decide_eq_true_2 (Str "weibull" = Str "weibull")) by done.
  rewrite (bool_decide_eq_false_2 (Str "weibull" = Str "gumbel")) by done.
  cbv beta iota. rewrite Hcomplement.
  unfold myplot_lib.pop.
  destruct (xs ++ [x]) as [|x0 xs0] eqn:Exs; [by destruct xs|].
  destruct (ps ++ [p]) as [|p0 ps0] eqn:Eps; [by destruct ps|].
  step. rewrite <- Exs, <- Eps, !removelast_last.
  assert (Hlog := comprehension_math_log ps (λ p', 1 - p') t).
  unfold mbind, M_bind, bind, mret, M_ret, ret, raise in Hlog.
  rewrite Hlog
    by (intros p' Hp'; apply Hps in Hp'; by apply Qclt_minus_iff in Hp').
  rewrite keywords_run
    by (intros kv [->|[]%elem_of_nil]%elem_of_cons; by rewrite !lookup_insert_ne).
  cbv beta iota. rewrite pyplot_plot_run, bool_decide_eq_true_2; [done|].
  right. by rewrite Cdf_kwargs_lookup_ne, lookup_insert_eq.
Qed.

(** X20.  The transform [gumbel] never gets a line drawn.  Also when
    there is a first rendered point to drop and every other probability
    is above 0, so that all logarithms exist (and [complement] is false,
    the options without [label]): [Cdf] puts [yscale] among the keywords
    of [pyplot.plot], which rejects it, and [Cdf] raises with the trace as
    it was. *)
Theorem Cdf_gumbel_rejected (cdf : myplot_lib.series) (complement : value)
    (options : gmap string value) (t : myplot_lib.trace)
    (xs ps : list Qc) (x p : Qc) :
  myplot_lib.Render cdf t = Ret (x :: xs, p :: ps) t →
  myplot_lib.truthy complement = false →
  (∀ p', p' ∈ ps → 0 < p') →
  options !! "label"%string = None →
  myplot_lib.Cdf log unknown_property cdf complement (Str "gumbel") options t
  = Raise unknown_property t.
Proof.
  intros HRender Hcomplement Hps Hlabel.
  unfold myplot_lib.Cdf. step. rewrite HRender. cbv beta iota.
  rewrite (bool_decide_eq_false_2 (Str "gumbel" = Str "exponential")) by done.
  rewrite (bool_decide_eq_false_2 (Str "gumbel" = Str "pareto")) by done.
  rewrite (bool_decide_eq_false_2 (Str "gumbel" = Str "weibull")) by done.
  rewrite (bool_decide_eq_true_2 (Str "gumbel" = Str "gumbel")) by done.
  cbv beta iota. rewrite Hcomplement.
  unfold myplot_lib.pop_0. step.
  assert (Hlog := comprehension_math_log ps (λ p', p') t).
  unfold mbind, M_bind, bind, mret, M_ret, ret, raise in Hlog.
  rewrite Hlog by done.
  rewrite keywords_run
    by (intros kv [->|[]%elem_of_nil]%elem_of_cons; by rewrite !lookup_insert_ne).
  cbv beta iota. rewrite pyplot_plot_run, bool_decide_eq_true_2; [done|].
  right. by rewrite Cdf_kwargs_lookup_ne, lookup_insert_eq.
Qed.

(** X21.  When [Render] gives no points, the transforms [weibull] and
    [gumbel] make [Cdf] raise [IndexError] (a [pop] from an empty list),
    and nothing is drawn. *)
Theorem Cdf_pop_from_empty (cdf : myplot_lib.series) (complement transform : value)
    (options : gmap string value) (t : myplot_lib.trace) (ps : list Qc) :
  myplot_lib.Render cdf t = Ret ([], ps) t →
  transform = Str "weibull" ∨ transform = Str "gumbel" →
  myplot_lib.Cdf log unknown_property cdf complement transform options t
  = Raise IndexError t.
Proof.
  intros HRender [-> | ->];
    unfold myplot_lib.Cdf; step; rewrite HRender; cbv beta iota.
  - rewrite (bool_decide_eq_false_2 (Str "weibull" = Str "exponential")) by done.
    rewrite (bool_decide_eq_false_2 (Str "weibull" = Str "pareto")) by done.
    rewrite (bool_decide_eq_true_2 (Str "weibull" = Str "weibull")) by done.
    done.
  - rewrite (bool_decide_eq_false_2 (Str "gumbel" = Str "exponential")) by done.
    rewrite (bool_decide_eq_false_2 (Str "gumbel" = Str "pareto")) by done.
    rewrite (bool_decide_eq_false_2 (Str "gumbel" = Str "weibull")) by done.
    rewrite (bool_decide_eq_true_2 (Str "gumbel" = Str "gumbel")) by done.
    done.
Qed.

Lemma Cdf_plain_run (cdf : myplot_lib.series) (complement : value)
    (options : gmap string value) (t : myplot_lib.trace) (xs ps : list Qc) :
  myplot_lib.Render cdf t = Ret (xs, ps) t →
  myplot_lib.truthy complement = false →
  options !! "label"%string = None →
  myplot_lib.Cdf log unknown_property cdf complement None_ options t
  = if bool_decide (is_Some (options !! "xscale"%string) ∨
                    is_Some (options !! "yscale"%string))
    then Raise unknown_property t
    else Ret tt (t ++ [myplot_lib.plot xs ps None (Cdf_kwargs cdf options)]).
Proof.
  intros HRender Hcomplement Hlabel.
  unfold myplot_lib.Cdf. step. rewrite HRender. cbv beta iota.
  rewrite !(bool_decide_eq_false_2 (None_ = Str _)) by done.
  cbv beta iota. rewrite Hcomplement. step.
  rewrite keywords_run by (intros kv [->|[]%elem_of_nil]%elem_of_cons; done).
  cbv beta iota. by rewrite pyplot_plot_run, !Cdf_kwargs_lookup_ne by done.
Qed.

Lemma for_each_call_Cdf (cdfs : list myplot_lib.series)
    (data : myplot_lib.series → list Qc * list Qc) (complement : value)
    (options : gmap string value) (g : nat → nat) (t : myplot_lib.trace) :
  (∀ cdf t', cdf ∈ cdfs → myplot_lib.Render cdf t' = Ret (data cdf) t') →
  myplot_lib.truthy complement = false →
  options !! "label"%string = None →
  options !! "cdf"%string = None →
  options !! "complement"%string = None →
  options !! "transform"%string = None →
  bool_decide (is_Some (options !! "xscale"%string) ∨
               is_Some (options !! "yscale"%string)) = false →
  for_each (imap (λ i cdf, (g i, cdf)) cdfs)
    (λ '(i, cdf),
       myplot_lib.call_Cdf log unknown_property cdf complement None_ options) t
  = Ret tt (t ++ ((λ cdf, myplot_lib.plot (data cdf).1 (data cdf).2 None
                            (Cdf_kwargs cdf options)) <$> cdfs)).
Proof.
  intros HRender Hcomplement Hlabel Hcdf Hcompl Htrans Hscale. revert g t.
  induction cdfs as [|cdf cdfs IH]; intros g t.
  - cbn. unfold ret. by rewrite app_nil_r.
  - cbn [imap for_each fmap list_fmap]. step.
    unfold myplot_lib.call_Cdf at 1.
    rewrite bool_decide_eq_false_2
      by (rewrite Hcdf, Hcompl, Htrans; by intros [[? ?]|[[? ?]|[? ?]]]).
    pose proof (HRender cdf t ltac:(left)) as Hr.
    destruct (data cdf) as [xs ps] eqn:Hdata.
    rewrite (Cdf_plain_run cdf complement options t xs ps Hr Hcomplement Hlabel).
    rewrite Hscale. unfold compose.
    rewrite (IH (λ cdf' t' Hin, HRender cdf' t' ltac:(by right)) (λ i, g (S i))).
    by rewrite <- app_assoc.
Qed.

(** X22.  Without transform and complement, for distribution functions
    whose [Render] returns and options without [label] (and without the
    parameter names [cdf], [complement], [transform]): [Cdfs] draws one
    line per distribution function, in the order given, through the
    rendered points as they are, each labelled with the name of its own
    distribution function and otherwise with the caller's options.  When
    the caller's options hold [xscale] or [yscale], [pyplot.plot] rejects
    them at the first distribution function, and [Cdfs] raises with
    nothing drawn. *)
Theorem Cdfs_one_line_each (cdfs : list myplot_lib.series)
    (data : myplot_lib.series → list Qc * list Qc) (complement : value)
    (options : gmap string value) (t : myplot_lib.trace) :
  (∀ cdf t', cdf ∈ cdfs → myplot_lib.Render cdf t' = Ret (data cdf) t') →
  myplot_lib.truthy complement = false →
  options !! "label"%string = None →
  options !! "cdf"%string = None →
  options !! "complement"%string = None →
  options !! "transform"%string = None →
  myplot_lib.Cdfs log unknown_property cdfs complement None_ options t
    = (if bool_decide (is_Some (options !! "xscale"%string) ∨
                       is_Some (options !! "yscale"%string))
       then match cdfs with
            | [] => Ret tt t
            | _ :: _ => Raise unknown_property t
            end
       else Ret tt (t ++ ((λ cdf, myplot_lib.plot (data cdf).1 (data cdf).2 None
                                    (Cdf_kwargs cdf options)) <$> cdfs))) ∧
  ∀ cdf key,
    Cdf_kwargs cdf options !! key
    = if decide (key = "label"%string) then Some (Str (myplot_lib.name cdf))
      else options !! key.
Proof.
  intros HRender Hcomplement Hlabel Hcdf Hcompl Htrans. split.
  - unfold myplot_lib.Cdfs.
    destruct (bool_decide (is_Some (options !! "xscale"%string) ∨
                           is_Some (options !! "yscale"%string))) eqn:Hscale.
    + destruct cdfs as [|cdf cdfs]; [done|].
      cbn [imap for_each]. step.
      unfold myplot_lib.call_Cdf at 1.
      rewrite bool_decide_eq_false_2
        by (rewrite Hcdf, Hcompl, Htrans; by intros [[? ?]|[[? ?]|[? ?]]]).
      pose proof (HRender cdf t ltac:(left)) as Hr.
      destruct (data cdf) as [xs ps] eqn:Hdata.
      rewrite (Cdf_plain_run cdf complement options t xs ps Hr Hcomplement Hlabel).
      by rewrite Hscale.
    + change (imap pair cdfs) with (imap (λ i cdf, (id i, cdf)) cdfs).
      by rewrite (for_each_call_Cdf cdfs data complement options id t).
  - intros cdf key. case_decide as Hkey.
    + subst key. unfold Cdf_kwargs.
      change (list_to_map [("label"%string, Str (myplot_lib.name cdf))])
        with ({[ "label"%string := Str (myplot_lib.name cdf) ]} : gmap string value).
      by rewrite lookup_union, lookup_singleton_eq, Hlabel.
    + by apply Cdf_kwargs_lookup_ne.
Qed.
End Cdf_properties.

Lemma Cdf_scales_rejected_witness :
  myplot_lib.Cdf log_stand_in TypeError three_steps (Num 0) (Str "exponential") ∅ []
  = Raise TypeError [].
Proof.
  exact (Cdf_scales_rejected log_stand_in TypeError three_steps (Num 0)
           (Str "exponential") ∅ [] [1; 1 + 1; 1 + 1 + 1] [frac 1 4; frac 1 2; 1]
           eq_refl ltac:(discriminate) ltac:(discriminate) eq_refl).
Defined.

Lemma Cdf_weibull_rejected_witness :
  myplot_lib.Cdf log_stand_in TypeError three_steps (Num 0) (Str "weibull") ∅ []
  = Raise TypeError [].
Proof.
  apply (Cdf_weibull_rejected log_stand_in TypeError three_steps (Num 0) ∅ []
           [1; 1 + 1] [frac 1 4; frac 1 2] (1 + 1 + 1) 1); [done|done| |done].
  intros p' [->|[->|[]%elem_of_nil]%elem_of_cons]%elem_of_cons; reflexivity.
Defined.

Lemma Cdf_gumbel_rejected_witness :
  myplot_lib.Cdf log_stand_in TypeError three_steps (Num 0) (Str "gumbel") ∅ []
  = Raise TypeError [].
Proof.
  apply (Cdf_gumbel_rejected log_stand_in TypeError three_steps (Num 0) ∅ []
           [1 + 1; 1 + 1 + 1] [frac 1 2; 1] 1 (frac 1 4)); [done|done| |done].
  intros p' [->|[->|[]%elem_of_nil]%elem_of_cons]%elem_of_cons; reflexivity.
Defined.

Lemma Cdf_pop_from_empty_witness :
  myplot_lib.Cdf log_stand_in TypeError (fixed_series [] [] "empty") (Num 0)
    (Str "weibull") ∅ []
  = Raise IndexError [].
Proof.
  apply (Cdf_pop_from_empty log_stand_in TypeError (fixed_series [] [] "empty")
           (Num 0) (Str "weibull") ∅ [] []); [done|by left].
Defined.

Lemma Cdfs_one_line_each_witness :
  myplot_lib.Cdfs log_stand_in TypeError [three_steps; boys] (Num 0) None_ ∅ []
    = Ret tt [myplot_lib.plot [1; 1 + 1; 1 + 1 + 1] [frac 1 4; frac 1 2; 1] None
                (Cdf_kwargs three_steps ∅);
              myplot_lib.plot [1; 1 + 1] [frac 1 2; frac 1 2] None
                (Cdf_kwargs boys ∅)] ∧
  ∀ cdf key,
    Cdf_kwargs cdf ∅ !! key
    = if decide (key = "label"%string) then Some (Str (myplot_lib.name cdf))
      else (∅ : gmap string value) !! key.
Proof.
  pose proof (Cdfs_one_line_each log_stand_in TypeError [three_steps; boys]
                (λ cdf, match myplot_lib.Render cdf [] with
                        | Ret series _ => series
                        | Raise _ _ => ([], [])
                        end) (Num 0) ∅ []) as H.
  rewrite bool_decide_eq_false_2 in H
    by (rewrite !lookup_empty; by intros [[? ?]|[? ?]]).
  apply H; try done.
  intros cdf t' [->|[->|[]%elem_of_nil]%elem_of_cons]%elem_of_cons; reflexivity.
Defined.

(** ** [MakeFigure] *)

Lemma week_body_run (table_ : table) (o : obj) (week : Z)
    (w : conditional_figure.world) :
  conditional_figure.objects w !! pmf table_ = Some o →
  conditional_figure.week_body table_ week w =
    if decide (tail_mass (d o) week = 0)
    then Raise EmptyDistributionError
           (conditional_figure.World
              (conditional_figure.objects w
                 ++ [Obj (restrict (λ x, (week <=? x)%Z) (d o)) "conditional"])
              (conditional_figure.calls w))
    else Ret (conditional_prob (d o) week)
           (conditional_figure.World
              (conditional_figure.objects w
                 ++ [Obj (conditioned (λ x, (week <=? x)%Z) (d o)) "conditional"])
              (conditional_figure.calls w ++ [week_line (d o) (Pmf.name o) week])).
Proof.
  intros Hpmf. unfold conditional_figure.week_body, conditional_figure.pmf_name.
  step. unfold conditional_figure.on_objects, conditional_figure.on_calls.
  rewrite (ConditionOnWeeks_run _ _ o (Some week) None Hpmf).
  change (default 39%Z (Some week)) with week.
  change (default "conditional"%string None) with "conditional"%string.
  unfold tail_mass. case_decide as Hzero; [done|].
  cbn [conditional_figure.objects conditional_figure.calls].
  erewrite Prob_run by apply lookup_fresh.
  cbn [conditional_figure.objects conditional_figure.calls].
  rewrite (deref_run _ _ o) by (by apply lookup_app_l_Some).
  unfold myplot_lib.emit. cbn [conditional_figure.objects conditional_figure.calls d].
  unfold week_line, conditional_prob, tail_mass.
  rewrite prob_conditioned, Z.leb_refl. done.
Qed.

Lemma weeks_loop_run (table_ : table) (o : obj) (weeks : list Z)
    (w : conditional_figure.world) :
  conditional_figure.objects w !! pmf table_ = Some o →
  comprehension weeks (conditional_figure.week_body table_) w =
    let w' :=
      conditional_figure.World
        (conditional_figure.objects w ++ weeks_objects (d o) weeks)
        (conditional_figure.calls w
           ++ (week_line (d o) (Pmf.name o) <$> weeks_done (d o) weeks)) in
    if decide (weeks_done (d o) weeks = weeks)
    then Ret (conditional_prob (d o) <$> weeks) w'
    else Raise EmptyDistributionError w'.
Proof.
  intros Hpmf. revert w Hpmf. induction weeks as [|week weeks IH]; intros w Hpmf.
  - cbn. unfold ret. rewrite !app_nil_r. by destruct w.
  - cbn [comprehension weeks_done weeks_objects]. step.
    rewrite (week_body_run table_ o week w Hpmf).
    destruct (decide (tail_mass (d o) week = 0)) as [Hzero|Hzero].
    + rewrite decide_False by done. cbn [fmap list_fmap]. by rewrite app_nil_r.
    + rewrite IH by (by apply lookup_app_l_Some).
      cbn [conditional_figure.objects conditional_figure.calls fmap list_fmap].
      rewrite <- !app_assoc. cbn [app].
      destruct (decide (weeks_done (d o) weeks = weeks)) as [Hall|Hnot].
      * rewrite decide_True by congruence. done.
      * rewrite decide_False by congruence. done.
Qed.

Lemma weeks_done_all (m : gmap Z Qc) (weeks : list Z) :
  weeks_done m weeks = weeks ↔ ∀ week, week ∈ weeks → tail_mass m week ≠ 0.
Proof.
  induction weeks as [|week weeks IH]; simpl.
  - split; [by intros _ week ?%elem_of_nil|done].
  - case_decide as Hzero.
    + split; [done|]. intros Hall. destruct (Hall week); [by left|done].
    + split.
      * intros E. injection E as E. intros week' [->|Hin]%elem_of_cons; [done|].
        by apply IH.
      * intros Hall. f_equal. apply IH. intros week' Hin. apply Hall. by right.
Qed.

Lemma table_body_run (table_ : table) (o : obj) (probs : gmap string (list Qc))
    (w : conditional_figure.world) :
  conditional_figure.objects w !! pmf table_ = Some o →
  conditional_figure.table_body table_ probs w =
    let w' :=
      conditional_figure.World
        (conditional_figure.objects w
           ++ weeks_objects (d o) conditional_figure.weeks)
        (conditional_figure.calls w
           ++ (week_line (d o) (Pmf.name o)
                 <$> weeks_done (d o) conditional_figure.weeks)) in
    if decide (weeks_done (d o) conditional_figure.weeks = conditional_figure.weeks)
    then Ret (<[Pmf.name o := conditional_prob (d o) <$> conditional_figure.weeks]> probs) w'
    else Raise EmptyDistributionError w'.
Proof.
  intros Hpmf. unfold conditional_figure.table_body, conditional_figure.pmf_name.
  step. unfold conditional_figure.on_objects.
  rewrite (deref_run _ _ o Hpmf).
  replace (conditional_figure.World (conditional_figure.objects w)
             (conditional_figure.calls w)) with w by (by destruct w).
  rewrite (weeks_loop_run table_ o _ w Hpmf). cbv zeta.
  by case_decide.
Qed.

Lemma for_each_line_body (entries : list (string * list Qc))
    (w : conditional_figure.world) :
  for_each entries conditional_figure.line_body w =
    Ret tt (conditional_figure.World (conditional_figure.objects w)
              (conditional_figure.calls w ++ concat (entry_events <$> entries))).
Proof.
  revert w. induction entries as [|[name ps] entries IH]; intros w.
  - cbn. unfold ret. rewrite app_nil_r. by destruct w.
  - cbn [for_each fmap list_fmap concat]. step.
    unfold conditional_figure.line_body at 1. step.
    unfold conditional_figure.on_calls, myplot_lib.emit.
    cbn [conditional_figure.objects conditional_figure.calls].
    rewrite IH. cbn [conditional_figure.objects conditional_figure.calls].
    unfold entry_events. cbn [fst snd]. by rewrite <- !app_assoc.
Qed.

Lemma call_Plot_1_without_ys
    (body : value → value → value → gmap string value → M myplot_lib.trace unit)
    (x : value) (kwargs : gmap string value) (t : myplot_lib.trace) :
  kwargs !! "ys"%string = None →
  myplot_lib.call_Plot_1 body x kwargs t = Raise TypeError t.
Proof.
  intros Hys. unfold myplot_lib.call_Plot_1.
  case_bool_decide; [done|]. by rewrite Hys.
Qed.

Lemma last_keywords_ys : conditional_figure.last_keywords !! "ys"%string = None.
Proof. vm_compute. reflexivity. Qed.

Lemma MakeFigure_run
    (iteritems : gmap string (list Qc) → list (string * list Qc))
    (Plot : value → value → value → gmap string value → M myplot_lib.trace unit)
    (firsts others : table) (o1 o2 : obj) (h : heap) (t : myplot_lib.trace) :
  h !! pmf firsts = Some o1 →
  h !! pmf others = Some o2 →
  conditional_figure.MakeFigure iteritems Plot firsts others (conditional_figure.World h t)
  = let weeks := conditional_figure.weeks in
    let objects1 := h ++ weeks_objects (d o1) weeks in
    let lines1 := t ++ (week_line (d o1) (Pmf.name o1) <$> weeks_done (d o1) weeks) in
    let objects2 := objects1 ++ weeks_objects (d o2) weeks in
    let lines2 := lines1 ++ (week_line (d o2) (Pmf.name o2) <$> weeks_done (d o2) weeks) in
    let probs :=
      <[Pmf.name o2 := conditional_prob (d o2) <$> weeks]>
        (<[Pmf.name o1 := conditional_prob (d o1) <$> weeks]> ∅) in
    if decide (weeks_done (d o1) weeks = weeks)
    then
      if decide (weeks_done (d o2) weeks = weeks)
      then Raise TypeError
             (conditional_figure.World objects2
                ((lines2 ++ [myplot_lib.clf])
                   ++ concat (entry_events <$> iteritems probs)))
      else Raise EmptyDistributionError (conditional_figure.World objects2 lines2)
    else Raise EmptyDistributionError (conditional_figure.World objects1 lines1).
Proof.
  intros H1 H2. cbv zeta.
  unfold conditional_figure.MakeFigure. cbn [conditional_figure.for_each_with]. step.
  rewrite (table_body_run firsts o1 ∅ (conditional_figure.World h t) H1). cbv zeta.
  cbn [conditional_figure.objects conditional_figure.calls].
  destruct (decide (weeks_done (d o1) conditional_figure.weeks = conditional_figure.weeks))
    as [Hall1|Hnot1]; [|done].
  erewrite (table_body_run others o2)
    by (cbn [conditional_figure.objects]; by apply lookup_app_l_Some). cbv zeta.
  cbn [conditional_figure.objects conditional_figure.calls].
  destruct (decide (weeks_done (d o2) conditional_figure.weeks = conditional_figure.weeks))
    as [Hall2|Hnot2]; [|done].
  unfold conditional_figure.on_calls at 1. unfold myplot_lib.emit at 1.
  cbn [conditional_figure.objects conditional_figure.calls].
  rewrite for_each_line_body.
  cbn [conditional_figure.objects conditional_figure.calls].
  unfold conditional_figure.on_calls.
  cbn [conditional_figure.objects conditional_figure.calls].
  by rewrite (call_Plot_1_without_ys _ _ _ _ last_keywords_ys).
Qed.

(** X23.  [MakeFigure] never returns, on tables whose distributions are
    in the store and for every order of [probs.iteritems()].  When both
    distributions have mass at or after every week from 35 to 45, it gets
    to its last statement, where the call of [myplot.Plot] with one
    positional argument and without the keyword [ys] leaves the parameter
    [ys] without a value and raises [TypeError]; otherwise
    [ConditionOnWeeks] raises [EmptyDistributionError] in the first
    loop. *)
Theorem MakeFigure_raises
    (iteritems : gmap string (list Qc) → list (string * list Qc))
    (Plot : value → value → value → gmap string value → M myplot_lib.trace unit)
    (firsts others : table) (o1 o2 : obj) (h : heap) (t : myplot_lib.trace) :
  h !! pmf firsts = Some o1 →
  h !! pmf others = Some o2 →
  raised (conditional_figure.MakeFigure iteritems Plot firsts others
            (conditional_figure.World h t))
  = Some (if decide (Forall (λ week, tail_mass (d o1) week ≠ 0 ∧
                                     tail_mass (d o2) week ≠ 0)
                       conditional_figure.weeks)
          then TypeError else EmptyDistributionError).
Proof.
  intros H1 H2. rewrite (MakeFigure_run iteritems Plot firsts others o1 o2 h t H1 H2).
  cbv zeta.
  destruct (decide (weeks_done (d o1) conditional_figure.weeks = conditional_figure.weeks))
    as [Hall1|Hnot1];
    [destruct (decide (weeks_done (d o2) conditional_figure.weeks
                       = conditional_figure.weeks)) as [Hall2|Hnot2]|];
    cbn [raised].
  - rewrite decide_True; [done|]. apply Forall_forall. intros week Hin%list_elem_of_In.
    split; [exact (proj1 (weeks_done_all _ _) Hall1 week Hin)
           |exact (proj1 (weeks_done_all _ _) Hall2 week Hin)].
  - rewrite decide_False; [done|]. intros Hall. apply Hnot2, weeks_done_all.
    intros week Hin%list_elem_of_In.
    by apply (proj1 (Forall_forall _ _) Hall week Hin).
  - rewrite decide_False; [done|]. intros Hall. apply Hnot1, weeks_done_all.
    intros week Hin%list_elem_of_In.
    by apply (proj1 (Forall_forall _ _) Hall week Hin).
Qed.

Lemma long_pmf_tail (week : Z) :
  (35 ≤ week ≤ 45)%Z → tail_mass long_pmf week ≠ 0.
Proof.
  intros Hweek.
  assert (Hcases : week ∈ seqZ 35 11) by (apply elem_of_seqZ; lia).
  vm_compute seqZ in Hcases.
  repeat (apply elem_of_cons in Hcases as [->|Hcases];
          [apply Qc_this_neq; vm_compute; discriminate|]).
  by apply elem_of_nil in Hcases.
Qed.

Lemma MakeFigure_raises_witness :
  raised (conditional_figure.MakeFigure map_to_list no_Plot (Table 0%nat) (Table 1%nat)
            (conditional_figure.World long_heap []))
  = Some (if decide (Forall (λ week, tail_mass long_pmf week ≠ 0 ∧
                                     tail_mass long_pmf week ≠ 0)
                       conditional_figure.weeks)
          then TypeError else EmptyDistributionError).
Proof.
  exact (MakeFigure_raises map_to_list no_Plot (Table 0%nat) (Table 1%nat)
           (Obj long_pmf "first") (Obj long_pmf "others") long_heap []
           eq_refl eq_refl).
Defined.

(** X24.  When both distributions have mass at or after every week from
    35 to 45, [MakeFigure] computes for each table the probabilities of
    [week] given at least [week], prints them, clears the figure and
    draws one labelled line per table name over the weeks 35 to 45, and
    then raises [TypeError] at its last statement.  The lines come in the
    order of [probs.iteritems()], which gives every entry of the
    dictionary once: for two names, the two tables in one or the other
    order; for one name shared by both tables, the line of the second
    table only.  [MakeFigure] has allocated one conditioned copy per table
    and week and changed no existing object. *)
Theorem MakeFigure_plots_then_raises
    (iteritems : gmap string (list Qc) → list (string * list Qc))
    (Plot : value → value → value → gmap string value → M myplot_lib.trace unit)
    (firsts others : table) (o1 o2 : obj)
    (h : heap) (t : myplot_lib.trace) :
  (∀ probs, iteritems probs ≡ₚ map_to_list probs) →
  h !! pmf firsts = Some o1 →
  h !! pmf others = Some o2 →
  (∀ week, (35 ≤ week ≤ 45)%Z →
     tail_mass (d o1) week ≠ 0 ∧ tail_mass (d o2) week ≠ 0) →
  let line1 := (Pmf.name o1, conditional_prob (d o1) <$> conditional_figure.weeks) in
  let line2 := (Pmf.name o2, conditional_prob (d o2) <$> conditional_figure.weeks) in
  ∃ lines,
    conditional_figure.MakeFigure iteritems Plot firsts others (conditional_figure.World h t)
    = Raise TypeError
        (conditional_figure.World
           (h ++ weeks_objects (d o1) conditional_figure.weeks
              ++ weeks_objects (d o2) conditional_figure.weeks)
           (t ++ (week_line (d o1) (Pmf.name o1) <$> conditional_figure.weeks)
              ++ (week_line (d o2) (Pmf.name o2) <$> conditional_figure.weeks)
              ++ [myplot_lib.clf]
              ++ concat (entry_events <$> lines))) ∧
    if decide (Pmf.name o1 = Pmf.name o2)
    then lines = [line2]
    else lines = [line1; line2] ∨ lines = [line2; line1].
Proof.
  intros Hitems H1 H2 Hmass line1 line2.
  assert (Hall1 : weeks_done (d o1) conditional_figure.weeks = conditional_figure.weeks).
  { apply weeks_done_all. intros week Hin%elem_of_seqZ. apply Hmass. lia. }
  assert (Hall2 : weeks_done (d o2) conditional_figure.weeks = conditional_figure.weeks).
  { apply weeks_done_all. intros week Hin%elem_of_seqZ. apply Hmass. lia. }
  eexists. split.
  - rewrite (MakeFigure_run iteritems Plot firsts others o1 o2 h t H1 H2). cbv zeta.
    rewrite Hall1, Hall2, !decide_True by done.
    by rewrite <- !app_assoc.
  - pose proof (Hitems (<[line2.1 := line2.2]> (<[line1.1 := line1.2]> ∅))) as Hperm.
    cbn [fst snd line1 line2] in Hperm. revert Hperm.
    generalize (iteritems
                  (<[Pmf.name o2 := conditional_prob (d o2) <$> conditional_figure.weeks]>
                     (<[Pmf.name o1 := conditional_prob (d o1) <$> conditional_figure.weeks]>
                        ∅))).
    intros lines Hperm. case_decide as Hname.
    + rewrite Hname, insert_insert_eq, insert_empty, map_to_list_singleton in Hperm.
      by apply Permutation_singleton_r in Hperm.
    + rewrite map_to_list_insert, insert_empty, map_to_list_singleton in Hperm
        by (by rewrite lookup_insert_ne).
      symmetry in Hperm. apply Permutation_length_2_inv in Hperm.
      destruct Hperm as [-> | ->]; [by right|by left].
Qed.

Lemma MakeFigure_plots_then_raises_witness :
  raised (conditional_figure.MakeFigure (λ probs, reverse (map_to_list probs))
            no_Plot (Table 0%nat) (Table 1%nat)
            (conditional_figure.World long_heap []))
  = Some TypeError.
Proof.
  destruct (MakeFigure_plots_then_raises (λ probs, reverse (map_to_list probs))
              no_Plot (Table 0%nat) (Table 1%nat)
              (Obj long_pmf "first") (Obj long_pmf "others") long_heap []
              (λ probs, reverse_Permutation _) eq_refl eq_refl
              (λ week Hweek, conj (long_pmf_tail week Hweek)
                               (long_pmf_tail week Hweek)))
    as (lines & -> & _).
  reflexivity.
Defined.

Lemma Forall_week_line (m : gmap Z Qc) (name : string) (weeks : list Z) :
  Forall (λ e, is_print e = true) (week_line m name <$> weeks).
Proof. apply Forall_fmap, Forall_forall. by intros week _. Qed.

(** X25.  When one of the two distributions has no mass at or after some
    week from 35 to 45, [MakeFigure] raises [EmptyDistributionError]
    before it touches the figure: what it has added to the trace are
    printed lines only, no call into [pyplot], and the objects that were
    in the store are unchanged. *)
Theorem MakeFigure_empty_tail
    (iteritems : gmap string (list Qc) → list (string * list Qc))
    (Plot : value → value → value → gmap string value → M myplot_lib.trace unit)
    (firsts others : table) (o1 o2 : obj)
    (h : heap) (t : myplot_lib.trace) (week : Z) :
  h !! pmf firsts = Some o1 →
  h !! pmf others = Some o2 →
  (35 ≤ week ≤ 45)%Z →
  tail_mass (d o1) week = 0 ∨ tail_mass (d o2) week = 0 →
  ∃ new_objects lines,
    conditional_figure.MakeFigure iteritems Plot firsts others
      (conditional_figure.World h t)
    = Raise EmptyDistributionError
        (conditional_figure.World (h ++ new_objects) (t ++ lines)) ∧
    Forall (λ e, is_print e = true) lines.
Proof.
  intros H1 H2 Hweek Hzero.
  assert (Hin : week ∈ conditional_figure.weeks) by (apply elem_of_seqZ; lia).
  rewrite (MakeFigure_run iteritems Plot firsts others o1 o2 h t H1 H2). cbv zeta.
  destruct (decide (weeks_done (d o1) conditional_figure.weeks = conditional_figure.weeks))
    as [Hall1|Hnot1].
  - rewrite decide_False.
    + rewrite <- !app_assoc. do 2 eexists. split; [reflexivity|].
      apply Forall_app. split; apply Forall_week_line.
    + intros Hall2. destruct Hzero as [Hzero|Hzero].
      * by apply (proj1 (weeks_done_all _ _) Hall1 week Hin).
      * by apply (proj1 (weeks_done_all _ _) Hall2 week Hin).
  - do 2 eexists. split; [reflexivity|]. apply Forall_week_line.
Qed.

Lemma MakeFigure_empty_tail_witness :
  ∃ new_objects lines,
    conditional_figure.MakeFigure map_to_list no_Plot (Table 0%nat) (Table 1%nat)
      (conditional_figure.World risk_heap [])
    = Raise EmptyDistributionError
        (conditional_figure.World (risk_heap ++ new_objects) ([] ++ lines)) ∧
    Forall (λ e, is_print e = true) lines.
Proof.
  apply (MakeFigure_empty_tail map_to_list no_Plot (Table 0%nat) (Table 1%nat)
           (Obj first_pmf "first") (Obj even_pmf "others") risk_heap [] 40%Z);
    [reflexivity | reflexivity | lia |].
  left. apply Qc_this_eq. vm_compute. reflexivity.
Defined.

(** ** Conditioning gives probabilities *)

Lemma Qcinv_nonneg (x : Qc) : (0 ≤ x)%Qc → (0 ≤ / x)%Qc.
Proof.
  unfold Qcle. intros Hx.
  change (this (/ x)) with (Qred (/ this x)).
  change (this 0) with (Qred 0) in *.
  rewrite !Qred_correct in *. by apply Qinv_le_0_compat.
Qed.

Lemma Total_nonneg (m : gmap Z Qc) :
  (∀ v p, m !! v = Some p → (0 ≤ p)%Qc) → (0 ≤ Total m)%Qc.
Proof.
  induction m as [|k p m Hk IH] using map_ind; intros Hm.
  - rewrite Total_empty. apply Qcle_refl.
  - rewrite Total_insert by done.
    apply Qcplus_nonneg_nonneg.
    + apply (Hm k). by rewrite lookup_insert_eq.
    + apply IH. intros v q Hv. apply (Hm v).
      rewrite lookup_insert_ne; [done|]. intros ->. congruence.
Qed.

Lemma Total_ge_entry (m : gmap Z Qc) (v : Z) (p : Qc) :
  (∀ v p, m !! v = Some p → (0 ≤ p)%Qc) →
  m !! v = Some p → (p ≤ Total m)%Qc.
Proof.
  intros Hm Hv. rewrite <- (insert_delete_id m v p Hv).
  rewrite Total_insert by apply lookup_delete_eq.
  rewrite <- (Qcplus_0_r p) at 1. apply Qcplus_le_mono_l.
  apply Total_nonneg. intros v' q Hq.
  apply lookup_delete_Some in Hq as [_ Hq]. by apply (Hm v').
Qed.

(** X26.  On a distribution whose masses are not negative, and with some
    mass left after the filter, every probability of the distribution
    that [ConditionPmf] returns lies between 0 and 1. *)
Theorem ConditionPmf_probabilities (h : heap) (pmf : ref) (o : obj)
    (filter_func : Z → bool) (name : option string) :
  h !! pmf = Some o →
  (∀ v p, d o !! v = Some p → (0 ≤ p)%Qc) →
  Total (restrict (λ v, negb (filter_func v)) (d o)) ≠ 0 →
  ∃ cond : obj,
    ConditionPmf pmf filter_func name h = Ret (length h) (h ++ [cond]) ∧
    ∀ v, (0 ≤ prob (d cond) v)%Qc ∧ (prob (d cond) v ≤ 1)%Qc.
Proof.
  intros Hpmf Hpos Hne. eexists. split.
  { rewrite (ConditionPmf_run h pmf o filter_func name Hpmf).
    by rewrite decide_False. }
  intros v. cbn [d]. rewrite prob_conditioned.
  destruct (filter_func v) eqn:Hf; cbn [negb];
    [split; [apply Qcle_refl|by compute]|].
  set (kept := restrict (λ v, negb (filter_func v)) (d o)) in *.
  assert (Hrpos : ∀ v' p, kept !! v' = Some p → (0 ≤ p)%Qc).
  { intros v' p. unfold kept. rewrite lookup_restrict.
    destruct (negb (filter_func v')); [apply Hpos|done]. }
  assert (HT : (0 ≤ Total kept)%Qc) by by apply Total_nonneg.
  assert (Hp : (0 ≤ prob (d o) v)%Qc ∧ (prob (d o) v ≤ Total kept)%Qc).
  { unfold prob. destruct (d o !! v) as [p|] eqn:Hv; simpl;
      [|split; [apply Qcle_refl|done]].
    split; [by apply (Hpos v)|].
    apply (Total_ge_entry _ v); [done|].
    unfold kept. by rewrite lookup_restrict, Hf. }
  destruct Hp as [Hp0 HpT]. unfold Qcdiv. split.
  - rewrite <- (Qcmult_0_l (/ Total kept)).
    apply Qcmult_le_compat_r; [done|by apply Qcinv_nonneg].
  - rewrite <- (Qcmult_inv_r _ Hne).
    apply Qcmult_le_compat_r; [done|by apply Qcinv_nonneg].
Qed.

Lemma weeks_pmf_nonneg (v : Z) (p : Qc) : weeks_pmf !! v = Some p → (0 ≤ p)%Qc.
Proof.
  intros Hv. apply (elem_of_map_to_list weeks_pmf) in Hv.
  vm_compute map_to_list in Hv.
  repeat (apply elem_of_cons in Hv as [Hv|Hv];
          [injection Hv as -> ->; unfold Qcle, Qle; simpl; lia|]).
  by apply elem_of_nil in Hv.
Qed.

Lemma ConditionPmf_probabilities_witness :
  ∃ cond : obj,
    ConditionPmf 0%nat (λ v, (v <? 38)%Z) None weeks_heap
      = Ret 1%nat (weeks_heap ++ [cond]) ∧
    ∀ v, (0 ≤ prob (d cond) v)%Qc ∧ (prob (d cond) v ≤ 1)%Qc.
Proof.
  apply (ConditionPmf_probabilities weeks_heap 0%nat (Obj weeks_pmf "weeks")
           (λ v, (v <? 38)%Z) None); [reflexivity|apply weeks_pmf_nonneg|].
  apply Qc_this_neq. vm_compute. discriminate.
Defined.
